(** * tuizer: the process supervisor [Command] (src/models/command/index.ts)

    A shallow embedding of the [Command] class: the parameter resolver, the
    constructor, the lifecycle operations and the observers that the class
    attaches to its child process and to the input channel.

    JavaScript strings are modelled as [string]; numbers that are process
    ids, exit codes or clock readings as [Z]; [null] and [undefined] as
    [None].  Objects owned by the runtime (child processes, streams, the
    logger) are modelled by the part of their state the class can observe
    or change.

    The class mutates one object from callbacks that the runtime calls
    later.  The embedding keeps the object and the runtime side by side in
    a [World]: the listeners registered on each process are part of the
    runtime, an event is delivered by calling the listeners registered at
    that moment, and a script of actions (method calls, events, time
    passing) is run one action after the other.

    Three things are taken from the environment rather than computed:
    whether [spawn] throws or returns (and with which pid); the clock,
    which [new Date()] reads and which only moves forward; and the events
    themselves.  [kill] on a process records the request; an ['error'] the
    runtime raises for a signal it could not deliver is an event like any
    other. *)

From Stdlib Require Import ZArith Ascii String List Bool Lia.
From stdpp Require Import base list strings pretty.

Local Open Scope string_scope.
Local Open Scope Z_scope.

(** ** The parameter resolver *)

Module Resolver.

(** [CommandParameter]: a literal string, or an input object
    [{ parameter, answer }] whose [answer] may be missing. *)
Inductive CommandParameter : Type :=
  | Literal (s : string)
  | Input (parameter : string) (answer : option string).

(** What an element of the array returned by [resolveCommandParameters]
    holds at run time.  The TypeScript type is [string], but
    [param.answer as string] is only a compile-time cast: a missing answer
    is returned as the value [undefined]. *)
Inductive JsValue : Type :=
  | JsString (s : string)
  | JsUndefined.

(** [ToString] of a value used where a string is expected. *)
Definition ToString (v : option string) : string :=
  match v with
  | Some s => s
  | None => "undefined"
  end.

Definition isDollar (c : ascii) : bool := Ascii.eqb c "$"%char.
Definition isBackslash (c : ascii) : bool := Ascii.eqb c "\"%char.

(** [new RegExp(/(?<!\\)\$/)] run on a string, not global: the leftmost
    [$] whose preceding character, if any, is not a backslash.  [prev]
    tells whether the character before the current position is a
    backslash.  The result is the text before the match and the text after
    it (the match itself is always the one character [$]). *)
Fixpoint replaceRule_exec (prev : bool) (s : string) : option (string * string) :=
  match s with
  | EmptyString => None
  | String c rest =>
      if isDollar c && negb prev then Some (EmptyString, rest)
      else
        match replaceRule_exec (isBackslash c) rest with
        | Some (before, after) => Some (String c before, after)
        | None => None
        end
  end.

(** [GetSubstitution] of ECMAScript for a pattern without capture groups:
    in the replacement text, [$$] stands for [$], [$&] for the matched
    text, [$`] for the text before the match and [$'] for the text after
    it; any other character, also a [$] followed by something else (digits
    included, as there is no group to refer to), stands for itself. *)
Fixpoint GetSubstitution (matched before after replacement : string) : string :=
  match replacement with
  | EmptyString => EmptyString
  | String c rest =>
      if isDollar c then
        match rest with
        | String d rest' =>
            if Ascii.eqb d "$"%char then "$" +:+ GetSubstitution matched before after rest'
            else if Ascii.eqb d "&"%char then matched +:+ GetSubstitution matched before after rest'
            else if Ascii.eqb d "`"%char then before +:+ GetSubstitution matched before after rest'
            else if Ascii.eqb d "'"%char then after +:+ GetSubstitution matched before after rest'
            else String c (GetSubstitution matched before after rest)
        | EmptyString => String c EmptyString
        end
      else String c (GetSubstitution matched before after rest)
  end.

(** [str.match(replaceRule)] used as a condition: an array (truthy) when
    the pattern is found, [null] otherwise. *)
Definition String_match (str : string) : bool :=
  match replaceRule_exec false str with
  | Some _ => true
  | None => false
  end.

(** [str.replace(replaceRule, replaceValue)] with a string replacement. *)
Definition String_replace (str : string) (replaceValue : string) : string :=
  match replaceRule_exec false str with
  | Some (before, after) =>
      before +:+ GetSubstitution "$" before after replaceValue +:+ after
  | None => str
  end.

(** The callback given to [params.map]. *)
Definition resolveParameter (param : CommandParameter) : JsValue :=
  match param with
  | Literal s => JsString s
  | Input parameter answer =>
      if String_match parameter
      then JsString (String_replace parameter (ToString answer))
      else match answer with
           | Some a => JsString a
           | None => JsUndefined
           end
  end.

Definition resolveCommandParameters (params : list CommandParameter) : list JsValue :=
  map resolveParameter params.

(** [Array.prototype.join]: [undefined] elements are joined as the empty
    string. *)
Definition joinElement (v : JsValue) : string :=
  match v with
  | JsString s => s
  | JsUndefined => ""
  end.

Fixpoint join (sep : string) (l : list JsValue) : string :=
  match l with
  | [] => ""
  | [v] => joinElement v
  | v :: rest => joinElement v +:+ sep +:+ join sep rest
  end.

End Resolver.

Import Resolver.

(** ** The data the supervisor works on *)

Module Model.

Inductive CommandStatus : Type :=
  | NOT_STARTED | RUNNING | FINISHED | ERROR | STOPPED | KILLED.

Inductive HistoryEntryType : Type := IN | OUT | ERR.

Record IHistoryEntry : Type := {
  data : string;
  date : Z;
  type : HistoryEntryType
}.

(** [os.userInfo()] *)
Record UserInfo : Type := {
  uid : Z;
  gid : Z;
  username : string
}.

(** The descriptor and the bundle of channels as a caller may hand them
    over: any field can be missing.  A channel is named by a number. *)
Module Raw.

Record Descriptor : Type := {
  command : option string;
  parameters : option (list CommandParameter);
  description : option string;
  nameAlias : option string
}.

Record Streams : Type := {
  readInput : option nat;
  writeOutput : option nat;
  writeError : option nat
}.

End Raw.

(** [ICommandDescriptor]: a descriptor that passed the schema. *)
Module Descriptor.

Record t : Type := {
  command : string;
  parameters : option (list CommandParameter);
  description : option string;
  nameAlias : option string
}.

End Descriptor.

(** [RunCommandStreams]: the three channels of the caller. *)
Module Streams.

Record t : Type := {
  readInput : nat;
  writeOutput : nat;
  writeError : nat
}.

End Streams.

(** What the errors and the log lines carry as [data]. *)
Inductive Payload : Type :=
  | NoData
  | DataJson (d : option Raw.Descriptor)   (* JSON.stringify(commandDescriptor) *)
  | DataText (s : string)
  | DataProcess (pid : option Z) (command : string).

Inductive JsError : Type :=
  | ValidationError (message : string) (details : Payload)
  | ProcessError (message : string) (details : Payload) (cause : JsError)
  | TypeError (message : string)
  | SystemError (message : string).

Definition message (e : JsError) : string :=
  match e with
  | ValidationError m _ => m
  | ProcessError m _ _ => m
  | TypeError m => m
  | SystemError m => m
  end.

Inductive LogLevel : Type := LevelDebug | LevelError.

Inductive LogEntry : Type :=
  | Log (level : LogLevel) (text : string) (details : Payload)
  | ConsoleLog (err : JsError).

(** The functions an emitter can hold as listeners: the closures the class
    creates in [eventsListener] and [registerIoEvent], which all capture
    [this], and the caller's own, named by a number. *)
Inductive Listener : Type :=
  | ExitObserver
  | ErrorObserver
  | StdoutRecorder
  | StderrRecorder
  | InputRecorder
  | UserListener (id : nat).

(** A [ChildProcess] object: what it was spawned with, the listeners on the
    process and on its output streams in registration order, what was
    written to its standard input and the signals [kill] asked for. *)
Record ChildProcess : Type := {
  spawnfile : string;
  spawnargs : list JsValue;
  spawncwd : string;
  spawnuid : Z;
  spawngid : Z;
  childPid : option Z;
  listeners : list (string * Listener);
  stdoutListeners : list Listener;
  stderrListeners : list Listener;
  stdinWritten : list string;
  signals : list string
}.

(** The [Command] object, field by field. *)
Record Command : Type := {
  commandDescriptor : Descriptor.t;
  command : string;
  parameters : list CommandParameter;
  description : string;
  nameAlias : string;
  pid : option Z;
  status : CommandStatus;
  runAs : UserInfo;
  exitCode : option Z;
  history : list IHistoryEntry;
  childProcess : option nat;
  startDate : option Z;
  streams : Streams.t
}.

(** A [Buffer] delivered by an output stream of the process.  Its bytes
    are not modelled: a buffer is known by the text [toString()] gives for
    it, which is what the class stores; two buffers with the same text are
    not told apart. *)
Inductive Buffer : Type := BufferOf (text : string).

Definition Buffer_toString (b : Buffer) : string :=
  match b with
  | BufferOf text => text
  end.

(** Everything outside the object: the logger, the clock, the directory
    and user of the host process, the child processes created so far (a
    [childProcess] field refers to one by its index), the listeners on the
    input channel and the buffers written to the two output channels. *)
Record Runtime : Type := {
  logs : list LogEntry;
  clock : Z;
  cwd : string;
  userInfo : UserInfo;
  children : list ChildProcess;
  inputListeners : list Listener;
  outputWritten : list Buffer;
  errorWritten : list Buffer
}.

Record World : Type := {
  runtime : Runtime;
  this : Command
}.

(** Field updates ([this.status = ...] and the like). *)

Definition set_parameters (v : list CommandParameter) (c : Command) : Command :=
  {| commandDescriptor := commandDescriptor c; command := command c; parameters := v;
     description := description c; nameAlias := nameAlias c; pid := pid c;
     status := status c; runAs := runAs c; exitCode := exitCode c; history := history c;
     childProcess := childProcess c; startDate := startDate c; streams := streams c |}.

Definition set_pid (v : option Z) (c : Command) : Command :=
  {| commandDescriptor := commandDescriptor c; command := command c; parameters := parameters c;
     description := description c; nameAlias := nameAlias c; pid := v;
     status := status c; runAs := runAs c; exitCode := exitCode c; history := history c;
     childProcess := childProcess c; startDate := startDate c; streams := streams c |}.

Definition set_status (v : CommandStatus) (c : Command) : Command :=
  {| commandDescriptor := commandDescriptor c; command := command c; parameters := parameters c;
     description := description c; nameAlias := nameAlias c; pid := pid c;
     status := v; runAs := runAs c; exitCode := exitCode c; history := history c;
     childProcess := childProcess c; startDate := startDate c; streams := streams c |}.

Definition set_exitCode (v : option Z) (c : Command) : Command :=
  {| commandDescriptor := commandDescriptor c; command := command c; parameters := parameters c;
     description := description c; nameAlias := nameAlias c; pid := pid c;
     status := status c; runAs := runAs c; exitCode := v; history := history c;
     childProcess := childProcess c; startDate := startDate c; streams := streams c |}.

Definition set_history (v : list IHistoryEntry) (c : Command) : Command :=
  {| commandDescriptor := commandDescriptor c; command := command c; parameters := parameters c;
     description := description c; nameAlias := nameAlias c; pid := pid c;
     status := status c; runAs := runAs c; exitCode := exitCode c; history := v;
     childProcess := childProcess c; startDate := startDate c; streams := streams c |}.

Definition set_childProcess (v : option nat) (c : Command) : Command :=
  {| commandDescriptor := commandDescriptor c; command := command c; parameters := parameters c;
     description := description c; nameAlias := nameAlias c; pid := pid c;
     status := status c; runAs := runAs c; exitCode := exitCode c; history := history c;
     childProcess := v; startDate := startDate c; streams := streams c |}.

Definition set_startDate (v : option Z) (c : Command) : Command :=
  {| commandDescriptor := commandDescriptor c; command := command c; parameters := parameters c;
     description := description c; nameAlias := nameAlias c; pid := pid c;
     status := status c; runAs := runAs c; exitCode := exitCode c; history := history c;
     childProcess := childProcess c; startDate := v; streams := streams c |}.

Definition set_logs (v : list LogEntry) (r : Runtime) : Runtime :=
  {| logs := v; clock := clock r; cwd := cwd r; userInfo := userInfo r; children := children r;
     inputListeners := inputListeners r; outputWritten := outputWritten r;
     errorWritten := errorWritten r |}.

Definition set_clock (v : Z) (r : Runtime) : Runtime :=
  {| logs := logs r; clock := v; cwd := cwd r; userInfo := userInfo r; children := children r;
     inputListeners := inputListeners r; outputWritten := outputWritten r;
     errorWritten := errorWritten r |}.

Definition set_children (v : list ChildProcess) (r : Runtime) : Runtime :=
  {| logs := logs r; clock := clock r; cwd := cwd r; userInfo := userInfo r; children := v;
     inputListeners := inputListeners r; outputWritten := outputWritten r;
     errorWritten := errorWritten r |}.

Definition set_inputListeners (v : list Listener) (r : Runtime) : Runtime :=
  {| logs := logs r; clock := clock r; cwd := cwd r; userInfo := userInfo r; children := children r;
     inputListeners := v; outputWritten := outputWritten r;
     errorWritten := errorWritten r |}.

Definition set_outputWritten (v : list Buffer) (r : Runtime) : Runtime :=
  {| logs := logs r; clock := clock r; cwd := cwd r; userInfo := userInfo r; children := children r;
     inputListeners := inputListeners r; outputWritten := v;
     errorWritten := errorWritten r |}.

Definition set_errorWritten (v : list Buffer) (r : Runtime) : Runtime :=
  {| logs := logs r; clock := clock r; cwd := cwd r; userInfo := userInfo r; children := children r;
     inputListeners := inputListeners r; outputWritten := outputWritten r;
     errorWritten := v |}.

Definition set_listeners (v : list (string * Listener)) (p : ChildProcess) : ChildProcess :=
  {| spawnfile := spawnfile p; spawnargs := spawnargs p; spawncwd := spawncwd p;
     spawnuid := spawnuid p; spawngid := spawngid p; childPid := childPid p;
     listeners := v; stdoutListeners := stdoutListeners p; stderrListeners := stderrListeners p;
     stdinWritten := stdinWritten p; signals := signals p |}.

Definition set_stdoutListeners (v : list Listener) (p : ChildProcess) : ChildProcess :=
  {| spawnfile := spawnfile p; spawnargs := spawnargs p; spawncwd := spawncwd p;
     spawnuid := spawnuid p; spawngid := spawngid p; childPid := childPid p;
     listeners := listeners p; stdoutListeners := v; stderrListeners := stderrListeners p;
     stdinWritten := stdinWritten p; signals := signals p |}.

Definition set_stderrListeners (v : list Listener) (p : ChildProcess) : ChildProcess :=
  {| spawnfile := spawnfile p; spawnargs := spawnargs p; spawncwd := spawncwd p;
     spawnuid := spawnuid p; spawngid := spawngid p; childPid := childPid p;
     listeners := listeners p; stdoutListeners := stdoutListeners p; stderrListeners := v;
     stdinWritten := stdinWritten p; signals := signals p |}.

Definition set_stdinWritten (v : list string) (p : ChildProcess) : ChildProcess :=
  {| spawnfile := spawnfile p; spawnargs := spawnargs p; spawncwd := spawncwd p;
     spawnuid := spawnuid p; spawngid := spawngid p; childPid := childPid p;
     listeners := listeners p; stdoutListeners := stdoutListeners p;
     stderrListeners := stderrListeners p; stdinWritten := v; signals := signals p |}.

Definition set_signals (v : list string) (p : ChildProcess) : ChildProcess :=
  {| spawnfile := spawnfile p; spawnargs := spawnargs p; spawncwd := spawncwd p;
     spawnuid := spawnuid p; spawngid := spawngid p; childPid := childPid p;
     listeners := listeners p; stdoutListeners := stdoutListeners p;
     stderrListeners := stderrListeners p; stdinWritten := stdinWritten p; signals := v |}.

(** Updates of one side of the world. *)
Definition onThis (f : Command -> Command) (w : World) : World :=
  {| runtime := runtime w; this := f (this w) |}.

Definition onRuntime (f : Runtime -> Runtime) (w : World) : World :=
  {| runtime := f (runtime w); this := this w |}.

(** An update of the child process [this.childProcess] refers to; nothing
    happens when the field is [null] ([this.childProcess?.]). *)
Definition onChild (f : ChildProcess -> ChildProcess) (w : World) : World :=
  match childProcess (this w) with
  | Some i => onRuntime (fun r => set_children (alter f i (children r)) r) w
  | None => w
  end.

End Model.

Import Model.

(** ** The class *)

Module Ops.

Definition logger_debug (text : string) : World -> World :=
  onRuntime (fun r => set_logs (logs r ++ [Log LevelDebug text NoData]) r).

Definition logger_error (text : string) (details : Payload) : World -> World :=
  onRuntime (fun r => set_logs (logs r ++ [Log LevelError text details]) r).

Definition console_log (err : JsError) : World -> World :=
  onRuntime (fun r => set_logs (logs r ++ [ConsoleLog err]) r).

(** Modelled from the spec: [commandDescriptorSchema] (definitions/ICommandDescriptor
    is not part of the sources at hand).  [command] is a required, non-empty
    string; the parameter list, the description and the alias are
    optional. *)
Definition commandDescriptorSchema_safeParse (d : option Raw.Descriptor) : option Descriptor.t :=
  match d with
  | Some r =>
      match Raw.command r with
      | Some c =>
          if String.eqb c "" then None
          else Some {| Descriptor.command := c;
                       Descriptor.parameters := Raw.parameters r;
                       Descriptor.description := Raw.description r;
                       Descriptor.nameAlias := Raw.nameAlias r |}
      | None => None
      end
  | None => None
  end.

(** Modelled from the spec: [runCommandArgsSchema] (definitions/ICommand is
    not part of the sources at hand): a bundle of three stream handles, a
    readable input source, a writable output sink and a writable error
    sink. *)
Definition runCommandArgsSchema_safeParse (s : option Raw.Streams) : option Streams.t :=
  match s with
  | Some r =>
      match Raw.readInput r, Raw.writeOutput r, Raw.writeError r with
      | Some i, Some o, Some e =>
          Some {| Streams.readInput := i; Streams.writeOutput := o; Streams.writeError := e |}
      | _, _, _ => None
      end
  | None => None
  end.

(** [a || b] on strings: the empty string and a missing one are falsy. *)
Definition orElse (a : option string) (b : string) : string :=
  match a with
  | Some s => if String.eqb s "" then b else s
  | None => b
  end.

(** [new Command(commandDescriptor, streams)].  [idGenerator] is the
    identifier [idGenerator()] would return.  The second component is the
    error thrown or the object created.  [streams.toString()] is evaluated
    as an argument of [logger.error]: it is ["[object Object]"] on an
    object and raises a [TypeError] on [undefined] or [null], before
    anything is logged. *)
Definition constructor (idGenerator : string)
    (commandDescriptor : option Raw.Descriptor) (streams : option Raw.Streams)
    (r : Runtime) : Runtime * (JsError + Command) :=
  match commandDescriptorSchema_safeParse commandDescriptor with
  | None =>
      (set_logs (logs r ++ [Log LevelError "Cound not create command instance: command descriptor not provided"
                              (DataJson commandDescriptor)]) r,
       inl (ValidationError "Could not create command instance: command descriptor not provided"
              (DataJson commandDescriptor)))
  | Some descriptor =>
      match runCommandArgsSchema_safeParse streams with
      | None =>
          match streams with
          | None => (r, inl (TypeError "Cannot read properties of undefined (reading 'toString')"))
          | Some _ =>
              (set_logs (logs r ++ [Log LevelError "Could not create command instance: IO streams not provided"
                                      (DataText "[object Object]")]) r,
               inl (ValidationError "Could not create command instance: IO streams not provided"
                      (DataText "[object Object]")))
          end
      | Some streams' =>
          let alias := orElse (Descriptor.nameAlias descriptor) idGenerator in
          (set_logs (logs r ++ [Log LevelDebug ("Creating command " +:+ alias) NoData]) r,
           inr {| commandDescriptor := descriptor;
                  command := Descriptor.command descriptor;
                  parameters := default [] (Descriptor.parameters descriptor);
                  description := orElse (Descriptor.description descriptor) "";
                  nameAlias := alias;
                  pid := None;
                  status := NOT_STARTED;
                  runAs := userInfo r;
                  exitCode := None;
                  history := [];
                  childProcess := None;
                  startDate := None;
                  streams := streams' |})
      end
  end.

(** *** The observers *)

Definition signalIs (signal : option string) (name : string) : bool :=
  match signal with
  | Some s => String.eqb s name
  | None => false
  end.

(** The [switch] of the exit observer.  [code && code > 0] holds for a
    number that is not zero and is greater than zero. *)
Definition exitStatus (code : option Z) (signal : option string) : CommandStatus :=
  if signalIs signal "SIGKILL" then KILLED
  else if signalIs signal "SIGTERM" then STOPPED
  else match code with
       | Some n => if negb (n =? 0) && (0 <? n) then ERROR else FINISHED
       | None => FINISHED
       end.

Definition dquote : string := String (ascii_of_nat 34) EmptyString.

Definition showCode (code : option Z) : string :=
  match code with
  | Some n => pretty n
  | None => "null"
  end.

Definition showSignal (signal : option string) : string :=
  match signal with
  | Some s => if String.eqb s "" then "" else "by signal" +:+ s
  | None => ""
  end.

(** The listener of ['exit']. *)
Definition onExit (code : option Z) (signal : option string) (w : World) : World :=
  let w := onThis (set_status (exitStatus code signal)) w in
  let w := onThis (set_exitCode code) w in
  logger_debug ("Command " +:+ dquote +:+ nameAlias (this w) +:+ dquote +:+ " is exiting "
                +:+ showSignal signal +:+ " with code " +:+ showCode code) w.

(** The listener of ['error']. *)
Definition onError (err : JsError) (w : World) : World :=
  let w := onThis (set_status STOPPED) w in
  logger_error ("Command " +:+ nameAlias (this w) +:+ " stopped: " +:+ message err) NoData w.

Definition push (e : IHistoryEntry) : World -> World :=
  onThis (fun c => set_history (history c ++ [e]) c).

(** The listeners of ['data'] on the standard output and the standard
    error of the process and on the input channel.  For the two output
    streams [chunk] is the text of the buffer delivered: the buffer itself
    is written to the channel of the caller and its [toString()] is pushed
    to the history.  On the input channel the same value is written to the
    process and pushed to the history. *)
Definition onStdoutData (chunk : string) (w : World) : World :=
  let buffer := BufferOf chunk in
  let w := onRuntime (fun r => set_outputWritten (outputWritten r ++ [buffer]) r) w in
  push {| data := Buffer_toString buffer; date := clock (runtime w); type := OUT |} w.

Definition onStderrData (chunk : string) (w : World) : World :=
  let buffer := BufferOf chunk in
  let w := onRuntime (fun r => set_errorWritten (errorWritten r ++ [buffer]) r) w in
  push {| data := Buffer_toString buffer; date := clock (runtime w); type := ERR |} w.

Definition onInputData (chunk : string) (w : World) : World :=
  let w := onChild (fun p => set_stdinWritten (stdinWritten p ++ [chunk]) p) w in
  push {| data := chunk; date := clock (runtime w); type := IN |} w.

(** What an emitter hands to its listeners. *)
Inductive Emitted : Type :=
  | EmitExit (code : option Z) (signal : option string)
  | EmitError (err : JsError)
  | EmitData (chunk : string).

(** Calling a listener.  The caller's own listeners are code outside the
    class: they are taken not to touch the object.  The closures of the
    class are only ever registered for their own event. *)
Definition call (l : Listener) (e : Emitted) (w : World) : World :=
  match l, e with
  | ExitObserver, EmitExit code signal => onExit code signal w
  | ErrorObserver, EmitError err => onError err w
  | StdoutRecorder, EmitData chunk => onStdoutData chunk w
  | StderrRecorder, EmitData chunk => onStderrData chunk w
  | InputRecorder, EmitData chunk => onInputData chunk w
  | _, _ => w
  end.

(** [emitter.emit]: the listeners present when the event is emitted are
    called one after the other, in registration order. *)
Definition emit (ls : list Listener) (e : Emitted) (w : World) : World :=
  fold_left (fun w l => call l e w) ls w.

Fixpoint listenersOf (name : string) (table : list (string * Listener)) : list Listener :=
  match table with
  | [] => []
  | (n, l) :: rest =>
      if String.eqb n name then l :: listenersOf name rest else listenersOf name rest
  end.

(** [eventsListener()] *)
Definition eventsListener (w : World) : World :=
  let w := onChild (fun p => set_listeners (listeners p ++ [("exit", ExitObserver)]) p) w in
  onChild (fun p => set_listeners (listeners p ++ [("error", ErrorObserver)]) p) w.

(** [registerIoEvent()] *)
Definition registerIoEvent (w : World) : World :=
  let w := onChild (fun p => set_stdoutListeners (stdoutListeners p ++ [StdoutRecorder]) p) w in
  let w := onChild (fun p => set_stderrListeners (stderrListeners p ++ [StderrRecorder]) p) w in
  onRuntime (fun r => set_inputListeners (inputListeners r ++ [InputRecorder]) r) w.

(** *** The public operations *)

(** What [spawn] does, as decided by the operating system: it throws, or
    it returns a process object (whose [pid] is [undefined] when the
    failure is only reported later, by an ['error'] event). *)
Inductive SpawnResult : Type :=
  | SpawnThrows (err : JsError)
  | SpawnReturns (pid : option Z).

Definition newChild (file : string) (args : list JsValue) (dir : string) (user : UserInfo)
    (pid' : option Z) : ChildProcess :=
  {| spawnfile := file; spawnargs := args; spawncwd := dir;
     spawnuid := uid user; spawngid := gid user; childPid := pid';
     listeners := []; stdoutListeners := []; stderrListeners := [];
     stdinWritten := []; signals := [] |}.

(** [run()]: the final world and the error thrown, if any. *)
Definition run (r : SpawnResult) (w : World) : World * option JsError :=
  let resolvedParameters := resolveCommandParameters (parameters (this w)) in
  let w := logger_debug ("Running command: " +:+ command (this w) +:+ " "
                         +:+ join " " resolvedParameters) w in
  let w := onThis (set_startDate (Some (clock (runtime w)))) w in
  match r with
  | SpawnReturns pid' =>
      let child := length (children (runtime w)) in
      let process := newChild (command (this w)) resolvedParameters (cwd (runtime w))
                       (runAs (this w)) pid' in
      let w := onRuntime (fun rt => set_children (children rt ++ [process]) rt) w in
      let w := onThis (set_childProcess (Some child)) w in
      let w := onThis (set_pid pid') w in
      let w := onThis (set_status RUNNING) w in
      let w := eventsListener w in
      let w := registerIoEvent w in
      (w, None)
  | SpawnThrows err =>
      let w := console_log err w in
      let w := logger_error "A problem occurred when running the process"
                 (DataProcess (pid (this w)) (command (this w))) w in
      (w, Some (ProcessError "A problem occurred when running the process"
                  (DataText "[object Object]") err))
  end.

(** [stop()] and [kill()]: the request is recorded with the process; what
    the operating system makes of it comes back as later events. *)
Definition stop (w : World) : World :=
  let w := logger_debug ("Stopping command " +:+ nameAlias (this w)) w in
  onChild (fun p => set_signals (signals p ++ ["SIGTERM"]) p) w.

Definition kill (w : World) : World :=
  let w := logger_debug ("Killing command " +:+ nameAlias (this w)) w in
  onChild (fun p => set_signals (signals p ++ ["SIGKILL"]) p) w.

Definition isRunning (w : World) : bool :=
  match status (this w) with
  | RUNNING => true
  | _ => false
  end.

Definition getStatus (w : World) : CommandStatus := status (this w).
Definition getParameters (w : World) : list CommandParameter := parameters (this w).
Definition getPid (w : World) : option Z := pid (this w).
Definition getExitCode (w : World) : option Z := exitCode (this w).
Definition getStartDate (w : World) : option Z := startDate (this w).
Definition getHistoryDump (w : World) : list IHistoryEntry := history (this w).
Definition getRunAs (w : World) : UserInfo := runAs (this w).
Definition getDescription (w : World) : string := description (this w).
Definition getNameAlias (w : World) : string := nameAlias (this w).

(** [this.command + this.parameters.join(' ')]: an input object is joined
    as the text [toString] gives for it. *)
Definition getCommandString (w : World) : string :=
  command (this w)
  +:+ join " " (map (fun param => match param with
                                  | Literal s => JsString s
                                  | Input _ _ => JsString "[object Object]"
                                  end) (parameters (this w))).

Definition setParameters (ps : list CommandParameter) : World -> World :=
  onThis (set_parameters ps).

(** [onEvent(event, listener)] *)
Definition onEvent (event : string) (listener : nat) : World -> World :=
  onChild (fun p => set_listeners (listeners p ++ [(event, UserListener listener)]) p).

Definition removeAllListeners (event : string) (p : ChildProcess) : ChildProcess :=
  set_listeners (List.filter (fun nl => negb (String.eqb (fst nl) event)) (listeners p)) p.

Fixpoint dedup (names : list string) : list string :=
  match names with
  | [] => []
  | n :: rest => n :: List.filter (fun m => negb (String.eqb m n)) (dedup rest)
  end.

(** [childProcess.eventNames()] *)
Definition eventNames (p : ChildProcess) : list string :=
  dedup (map fst (listeners p)).

(** [removeAllEventListeners(event?)]: a missing or empty [event] is falsy
    and removes the listeners of every event of the process. *)
Definition removeAllEventListeners (event : option string) (w : World) : World :=
  match childProcess (this w) with
  | Some i =>
      match event with
      | Some ev =>
          if String.eqb ev "" then
            fold_left (fun w ev => onChild (removeAllListeners ev) w)
              (from_option eventNames [] (children (runtime w) !! i)) w
          else onChild (removeAllListeners ev) w
      | None =>
          fold_left (fun w ev => onChild (removeAllListeners ev) w)
            (from_option eventNames [] (children (runtime w) !! i)) w
      end
  | None => w
  end.

(** *** The world around the object *)

(** An event of a child process. *)
Inductive ProcessEvent : Type :=
  | Exit (code : option Z) (signal : option string)
  | Failure (err : JsError).

Definition eventName (e : ProcessEvent) : string :=
  match e with
  | Exit _ _ => "exit"
  | Failure _ => "error"
  end.

Definition emitted (e : ProcessEvent) : Emitted :=
  match e with
  | Exit code signal => EmitExit code signal
  | Failure err => EmitError err
  end.

(** The process object [child] emits [e].  An ['error'] nobody listens to
    is thrown by the emitter. *)
Definition deliver (child : nat) (e : ProcessEvent) (w : World) : World * option JsError :=
  match children (runtime w) !! child with
  | Some p =>
      match e, listenersOf (eventName e) (listeners p) with
      | Failure err, [] => (w, Some err)
      | _, ls => (emit ls (emitted e) w, None)
      end
  | None => (w, None)
  end.

Definition deliverStdout (child : nat) (chunk : string) (w : World) : World :=
  match children (runtime w) !! child with
  | Some p => emit (stdoutListeners p) (EmitData chunk) w
  | None => w
  end.

Definition deliverStderr (child : nat) (chunk : string) (w : World) : World :=
  match children (runtime w) !! child with
  | Some p => emit (stderrListeners p) (EmitData chunk) w
  | None => w
  end.

Definition deliverInput (chunk : string) (w : World) : World :=
  emit (inputListeners (runtime w)) (EmitData chunk) w.

(** The three streams of a process. *)
Inductive StdStream : Type := Stdin | Stdout | Stderr.

(** A stream of the process [child] emits ['error'], as its standard
    input does when a write reaches a closed pipe.  [registerIoEvent]
    listens to ['data'] on the two output streams and to nothing on the
    standard input; the class listens to ['error'] on no stream and
    [onEvent] reaches the process object only.  So nobody handles the
    event: the emitter throws the error and the object is not told. *)
Definition deliverStreamError (child : nat) (stream : StdStream) (err : JsError)
    (w : World) : World * option JsError :=
  match children (runtime w) !! child with
  | Some _ => (w, Some err)
  | None => (w, None)
  end.

(** What can happen to a [Command] once it exists: the caller calls a
    method, the runtime delivers an event, time passes. *)
Inductive Action : Type :=
  | Tick (ms : N)
  | Run (r : SpawnResult)
  | Stop
  | Kill
  | SetParameters (ps : list CommandParameter)
  | OnEvent (event : string) (listener : nat)
  | RemoveAllEventListeners (event : option string)
  | ProcessEmits (child : nat) (e : ProcessEvent)
  | StdoutData (child : nat) (chunk : string)
  | StderrData (child : nat) (chunk : string)
  | InputData (chunk : string)
  | StreamFails (child : nat) (stream : StdStream) (err : JsError).

Definition step (a : Action) (w : World) : World * option JsError :=
  match a with
  | Tick ms => (onRuntime (fun r => set_clock (clock r + Z.of_N ms) r) w, None)
  | Run r => run r w
  | Stop => (stop w, None)
  | Kill => (kill w, None)
  | SetParameters ps => (setParameters ps w, None)
  | OnEvent event listener => (onEvent event listener w, None)
  | RemoveAllEventListeners event => (removeAllEventListeners event w, None)
  | ProcessEmits child e => deliver child e w
  | StdoutData child chunk => (deliverStdout child chunk w, None)
  | StderrData child chunk => (deliverStderr child chunk w, None)
  | InputData chunk => (deliverInput chunk w, None)
  | StreamFails child stream err => deliverStreamError child stream err w
  end.

(** A whole script; an error thrown by one action does not stop the next
    (the caller, or the runtime, goes on).  The errors are collected in
    order. *)
Fixpoint exec (script : list Action) (w : World) : World * list JsError :=
  match script with
  | [] => (w, [])
  | a :: rest =>
      let '(w1, thrown) := step a w in
      let '(w2, more) := exec rest w1 in
      (w2, (from_option (fun e => [e]) [] thrown ++ more)%list)
  end.

Definition after (script : list Action) (w : World) : World := fst (exec script w).

End Ops.

Import Ops.

(** ** Vocabulary of the statements *)

Module Props.

(** The four states the state machine ends in. *)
Definition isTerminal (s : CommandStatus) : bool :=
  match s with
  | FINISHED | ERROR | STOPPED | KILLED => true
  | NOT_STARTED | RUNNING => false
  end.

(** A replacement text in which no character is a [$]. *)
Fixpoint noDollar (s : string) : bool :=
  match s with
  | EmptyString => true
  | String c rest => negb (isDollar c) && noDollar rest
  end.

Definition isRun (a : Action) : bool :=
  match a with
  | Run _ => true
  | _ => false
  end.

(** A [run()] whose [spawn] returns a process. *)
Definition isSpawn (a : Action) : bool :=
  match a with
  | Run (SpawnReturns _) => true
  | _ => false
  end.


Definition isProcessEvent (a : Action) : bool :=
  match a with
  | ProcessEmits _ _ => true
  | _ => false
  end.

Definition noRun (script : list Action) : bool := forallb (fun a => negb (isRun a)) script.
Definition noSpawn (script : list Action) : bool := forallb (fun a => negb (isSpawn a)) script.
Definition noProcessEvent (script : list Action) : bool :=
  forallb (fun a => negb (isProcessEvent a)) script.

(** The world in which a freshly constructed object lives. *)
Definition world (r : Runtime) (c : Command) : World := {| runtime := r; this := c |}.

(** A runtime in which no process was spawned and nobody listens to the
    input channel yet. *)
Definition pristine (r : Runtime) : Prop := children r = [] /\ inputListeners r = [].

(** The history a script of deliveries is expected to leave behind, going
    by the specification: one entry per chunk, in delivery order, tagged by
    its direction and stamped with the time of its delivery.  [child] is
    the process the chunks come from and [now] the time at the start. *)
Fixpoint expectedHistory (child : nat) (now : Z) (script : list Action) : list IHistoryEntry :=
  match script with
  | [] => []
  | Tick ms :: rest => expectedHistory child (now + Z.of_N ms) rest
  | StdoutData i chunk :: rest =>
      if Nat.eqb i child
      then {| data := chunk; date := now; type := OUT |} :: expectedHistory child now rest
      else expectedHistory child now rest
  | StderrData i chunk :: rest =>
      if Nat.eqb i child
      then {| data := chunk; date := now; type := ERR |} :: expectedHistory child now rest
      else expectedHistory child now rest
  | InputData chunk :: rest =>
      {| data := chunk; date := now; type := IN |} :: expectedHistory child now rest
  | _ :: rest => expectedHistory child now rest
  end.

Definition typeEqb (a b : HistoryEntryType) : bool :=
  match a, b with
  | IN, IN | OUT, OUT | ERR, ERR => true
  | _, _ => false
  end.

(** How many entries of a history carry a given tag. *)
Definition tagged (t : HistoryEntryType) (h : list IHistoryEntry) : nat :=
  length (List.filter (fun e => typeEqb (type e) t) h).

(** How many chunks of each kind a script delivers. *)
Definition isStdoutOf (child : nat) (a : Action) : bool :=
  match a with
  | StdoutData i _ => Nat.eqb i child
  | _ => false
  end.

Definition isStderrOf (child : nat) (a : Action) : bool :=
  match a with
  | StderrData i _ => Nat.eqb i child
  | _ => false
  end.

Definition isInput (a : Action) : bool :=
  match a with
  | InputData _ => true
  | _ => false
  end.

Definition deliveries (which : Action -> bool) (script : list Action) : nat :=
  length (List.filter which script).

(** A listener changes the object only in its status, its exit code and
    its history: the status stays or becomes one of the final four, the
    history only grows, and a chunk of data touches neither status nor
    exit code. *)
Definition touched (e : Emitted) (c c' : Command) : Prop :=
  exists st code more,
    c' = set_history (history c ++ more) (set_exitCode code (set_status st c)) /\
    (st = status c \/ isTerminal st = true) /\
    match e with
    | EmitData _ => st = status c /\ code = exitCode c
    | _ => more = []
    end.



Definition keepsRecorders (p p' : ChildProcess) : Prop :=
  stdoutListeners p' = stdoutListeners p /\ stderrListeners p' = stderrListeners p.

(** The wiring [registerIoEvent] leaves after the first [run()] in a
    pristine runtime: one process, the one the object refers to, with one
    recorder on each of its output streams, and one recorder on the input
    channel. *)
Definition wired (w : World) : Prop :=
  childProcess (this w) = Some 0%nat /\
  inputListeners (runtime w) = [InputRecorder] /\
  exists p, children (runtime w) = [p] /\
            stdoutListeners p = [StdoutRecorder] /\ stderrListeners p = [StderrRecorder].

(** The time a [Tick] adds to the clock. *)
Definition elapsed (a : Action) : Z :=
  match a with
  | Tick ms => Z.of_N ms
  | _ => 0
  end.

End Props.

Import Props.

(** ** Sample inputs *)

Module Sample.

Definition host : Runtime :=
  {| logs := []; clock := 1700000000000; cwd := "/home/user";
     userInfo := {| uid := 1000; gid := 1000; username := "user" |};
     children := []; inputListeners := []; outputWritten := []; errorWritten := [] |}.

Definition descriptor : Raw.Descriptor :=
  {| Raw.command := Some "echo";
     Raw.parameters := Some [Literal "-n"; Input "--name=$" (Some "bob")];
     Raw.description := Some "prints a name";
     Raw.nameAlias := Some "greeter" |}.

Definition noCommand : Raw.Descriptor :=
  {| Raw.command := None;
     Raw.parameters := Some [Literal "-n"];
     Raw.description := None;
     Raw.nameAlias := Some "broken" |}.

Definition channels : Raw.Streams :=
  {| Raw.readInput := Some 0%nat; Raw.writeOutput := Some 1%nat; Raw.writeError := Some 2%nat |}.

Definition command0 : Command :=
  {| commandDescriptor :=
       {| Descriptor.command := "echo";
          Descriptor.parameters := Some [Literal "-n"; Input "--name=$" (Some "bob")];
          Descriptor.description := Some "prints a name";
          Descriptor.nameAlias := Some "greeter" |};
     command := "echo";
     parameters := [Literal "-n"; Input "--name=$" (Some "bob")];
     description := "prints a name";
     nameAlias := "greeter";
     pid := None; status := NOT_STARTED;
     runAs := {| uid := 1000; gid := 1000; username := "user" |};
     exitCode := None; history := []; childProcess := None; startDate := None;
     streams := {| Streams.readInput := 0%nat; Streams.writeOutput := 1%nat;
                   Streams.writeError := 2%nat |} |}.

Definition host0 : Runtime :=
  set_logs [Log LevelDebug "Creating command greeter" NoData] host.

(** The object right after construction, and after a [run()] that
    spawned process 4242. *)
Definition created : World := world host0 command0.
Definition running : World := fst (run (SpawnReturns (Some 4242)) created).

End Sample.

(** ** The manifest picker (src/services/manifest-picker/ManifestPicker.ts) *)

Module Manifest.

(** What a rejected [directoryLoader] carries: an error object, its
    [code] if it has one, and its text. *)
Record DirError : Type := {
  code : option string;
  text : string
}.

(** How [listManifests] rejects: with an error of its own, or with the
    one of the loader, thrown again as it came. *)
Inductive Rejection : Type :=
  | PlainError (message : string)
  | Rethrown (dirErr : DirError).

Section ListManifests.

(** [path.resolve] on two segments and [directoryLoader]
    (utils/fs/directoryLoader) belong to the environment. *)
Variable resolve : string -> string -> string.
Variable directoryLoader : string -> DirError + list string.

(** [dirErr.code == 'ENOENT'] *)
Definition isENOENT (e : DirError) : bool :=
  match code e with
  | Some c => String.eqb c "ENOENT"
  | None => false
  end.

(** [listManifests()], the promise settled: [HOME] is
    [process.env.HOME]; a missing and an empty value are both falsy. *)
Definition listManifests (HOME : option string) : Rejection + list string :=
  match HOME with
  | None => inl (PlainError "HOME env var is not set. Exiting")
  | Some home =>
      if String.eqb home "" then inl (PlainError "HOME env var is not set. Exiting")
      else
        let configsLocation := resolve home ".tuizer" in
        match directoryLoader configsLocation with
        | inl dirErr =>
            if isENOENT dirErr
            then inl (PlainError "No $HOME/.tuizer directory found. Exiting")
            else inl (Rethrown dirErr)
        | inr content =>
            match content with
            | [] => inl (PlainError "No files found at $HOME/.tuizer. Exiting ")
            | _ => inr (map (fun config => resolve configsLocation config) content)
            end
        end
  end.

End ListManifests.

End Manifest.

(** ** Further vocabulary *)

Module More.

(** The character of a text at a position, and the place of an unescaped
    marker, in the words of the comment in [resolveCommandParameters]: a
    [$] that is the first character or follows a character other than a
    backslash.  [prev] tells whether a backslash stands before the text. *)
Definition unescapedAt (prev : bool) (s : string) (i : nat) : Prop :=
  String.get i s = Some "$"%char /\
  match i with
  | O => prev = false
  | S j => String.get j s <> Some "\"%char
  end.

(** A parameter list whose answers are all given and free of [$]. *)
Definition plainAnswer (p : CommandParameter) : bool :=
  match p with
  | Literal _ => true
  | Input _ (Some a) => noDollar a
  | Input _ None => false
  end.




(** Two states of one process object: what it was spawned with and its
    pid are the same. *)
Definition sameProcess (p p' : ChildProcess) : Prop :=
  spawnfile p' = spawnfile p /\ spawnargs p' = spawnargs p /\ spawncwd p' = spawncwd p /\
  spawnuid p' = spawnuid p /\ spawngid p' = spawngid p /\ childPid p' = childPid p.

(** The object and the process it refers to agree: no process and no
    pid, or a process of the runtime, spawned from the command of the
    object as its user, whose pid is the pid of the object. *)
Definition refersToItsProcess (w : World) : Prop :=
  match childProcess (this w) with
  | None => pid (this w) = None
  | Some i =>
      exists p, children (runtime w) !! i = Some p /\
                childPid p = pid (this w) /\
                spawnfile p = command (this w) /\
                spawnuid p = uid (runAs (this w)) /\
                spawngid p = gid (runAs (this w))
  end.

(** A history in the order of its dates, none of them later than [now]. *)
Fixpoint chronological (now : Z) (h : list IHistoryEntry) : Prop :=
  match h with
  | [] => True
  | e :: rest => date e <= now /\ Forall (fun e' => date e <= date e') rest /\ chronological now rest
  end.

(** The chunks of one direction in a history. *)
Definition chunksOf (t : HistoryEntryType) (h : list IHistoryEntry) : list string :=
  map data (List.filter (fun e => typeEqb (type e) t) h).

End More.

Import More.

(** ** The parameter resolver: what the pattern finds *)

Section ResolverFacts.

(** The match splits the text around one [$]. *)
Lemma replaceRule_exec_split prev s before rest :
  replaceRule_exec prev s = Some (before, rest) ->
  s = before +:+ "$" +:+ rest.
Proof.
  revert prev before rest.
  induction s as [|c s IH]; intros prev before rest H; simpl in H; [discriminate|].
  destruct (isDollar c && negb prev) eqn:E.
  - injection H as <- <-. apply andb_prop in E as [E _].
    unfold isDollar in E. apply Ascii.eqb_eq in E. subst c. reflexivity.
  - destruct (replaceRule_exec (isBackslash c) s) as [[b r]|] eqn:E'; [|discriminate].
    injection H as <- <-. rewrite (IH _ _ _ E') at 1. reflexivity.
Qed.

(** It is the leftmost one: the pattern does not match inside the text
    before it. *)
Lemma replaceRule_exec_leftmost prev s before rest :
  replaceRule_exec prev s = Some (before, rest) ->
  replaceRule_exec prev before = None.
Proof.
  revert prev before rest.
  induction s as [|c s IH]; intros prev before rest H; simpl in H; [discriminate|].
  destruct (isDollar c && negb prev) eqn:E.
  - injection H as <- <-. reflexivity.
  - destruct (replaceRule_exec (isBackslash c) s) as [[b r]|] eqn:E'; [|discriminate].
    injection H as <- <-. simpl. rewrite E. erewrite IH; [reflexivity | exact E'].
Qed.

(** A replacement text without [$] is inserted as it is. *)
Lemma GetSubstitution_plain matched before rest replacement :
  noDollar replacement = true ->
  GetSubstitution matched before rest replacement = replacement.
Proof.
  induction replacement as [|c r IH]; intros H; simpl in *; [reflexivity|].
  apply andb_prop in H as [Hc Hr].
  destruct (isDollar c); [discriminate|]. f_equal. auto.
Qed.

Lemma resolveCommandParameters_app l1 l2 :
  resolveCommandParameters (l1 ++ l2)%list
  = (resolveCommandParameters l1 ++ resolveCommandParameters l2)%list.
Proof. apply map_app. Qed.

Lemma resolveCommandParameters_length l :
  length (resolveCommandParameters l) = length l.
Proof. apply length_map. Qed.

Lemma resolveCommandParameters_lookup l (i : nat) :
  resolveCommandParameters l !! i = resolveParameter <$> (l !! i).
Proof. apply list_lookup_fmap. Qed.

(** Literal parameters come back unchanged, in order. *)
Lemma resolve_literals (l : list string) :
  resolveCommandParameters (map Literal l) = map JsString l.
Proof. unfold resolveCommandParameters. rewrite map_map. reflexivity. Qed.

(** Without an unescaped marker the answer alone is used. *)
Lemma resolve_without_marker t a :
  replaceRule_exec false t = None ->
  resolveParameter (Input t (Some a)) = JsString a.
Proof. intros H. unfold resolveParameter, String_match. rewrite H. reflexivity. Qed.

(** With a marker, the text before and after the first one is kept and the
    replacement text is expanded in between. *)
Lemma resolve_with_marker t a before rest :
  replaceRule_exec false t = Some (before, rest) ->
  resolveParameter (Input t a)
  = JsString (before +:+ GetSubstitution "$" before rest (ToString a) +:+ rest).
Proof.
  intros H. unfold resolveParameter, String_match, String_replace. rewrite H. reflexivity.
Qed.

(** An answer without [$] replaces the first unescaped marker, and only
    that one. *)
Lemma resolve_plain_answer t a before rest :
  replaceRule_exec false t = Some (before, rest) ->
  noDollar a = true ->
  t = before +:+ "$" +:+ rest /\
  replaceRule_exec false before = None /\
  resolveParameter (Input t (Some a)) = JsString (before +:+ a +:+ rest).
Proof.
  intros H Ha. split; [|split].
  - eapply replaceRule_exec_split; eauto.
  - eapply replaceRule_exec_leftmost; eauto.
  - rewrite (resolve_with_marker _ _ _ _ H). simpl.
    rewrite GetSubstitution_plain by exact Ha. reflexivity.
Qed.

Example resolve_name :
  resolveCommandParameters [Literal "-n"; Input "--name=$" (Some "bob")]
  = [JsString "-n"; JsString "--name=bob"].
Proof. reflexivity. Qed.

(** An escaped marker is no marker: the answer alone is used. *)
Example resolve_escaped_only :
  resolveCommandParameters [Input "price: \$100" (Some "ignored")] = [JsString "ignored"].
Proof. reflexivity. Qed.

(** Escaped and later markers stay. *)
Example resolve_first_marker_only :
  resolveCommandParameters [Input "\$a=$ b=$" (Some "X")] = [JsString "\$a=X b=$"].
Proof. reflexivity. Qed.

(** C3, at the input where the code departs from it: the answer [$$] is
    read by [String.prototype.replace] as a replacement pattern, so the
    first unescaped marker of [--name=$] is replaced by a single [$] and
    not by the answer; where the template has no marker the same answer is
    returned as it is. *)
Theorem resolve_answer_read_as_pattern :
  resolveCommandParameters [Input "--name=$" (Some "$$"); Input "--name" (Some "$$")]
  = [JsString "--name=$"; JsString "$$"] /\
  resolveCommandParameters [Input "a$b" (Some "<$&$`$'>")] = [JsString "a<$ab>b"].
Proof. split; reflexivity. Qed.

(** C6, as the code has it: when the answer of an input parameter is
    missing, a template with an unescaped marker gets the text
    [undefined] in place of the first one; a template without one resolves
    to the value [undefined] itself, which is no string and reads as the
    empty string once joined. *)
Theorem resolve_missing_answer (t : string) :
  match replaceRule_exec false t with
  | Some (before, rest) =>
      resolveCommandParameters [Input t None] = [JsString (before +:+ "undefined" +:+ rest)]
  | None =>
      resolveCommandParameters [Input t None] = [JsUndefined] /\
      join " " (resolveCommandParameters [Input t None]) = ""
  end.
Proof.
  destruct (replaceRule_exec false t) as [[before rest]|] eqn:E.
  - change (resolveCommandParameters [Input t None]) with [resolveParameter (Input t None)].
    rewrite (resolve_with_marker _ _ _ _ E). reflexivity.
  - change (resolveCommandParameters [Input t None]) with [resolveParameter (Input t None)].
    unfold resolveParameter, String_match. rewrite E. split; reflexivity.
Qed.

(** C6 as stated fails: with no marker in the template, the resolved
    element is not the string [undefined]. *)
Lemma missing_answer_alone_is_not_a_string :
  resolveCommandParameters [Input "--flag" None] = [JsUndefined] /\
  resolveCommandParameters [Input "--flag" None] <> [JsString "undefined"].
Proof. split; [reflexivity | discriminate]. Qed.

End ResolverFacts.

(** ** Construction *)

Section Construction.

Variable idGenerator : string.

Lemma sample_constructed :
  constructor idGenerator (Some Sample.descriptor) (Some Sample.channels) Sample.host
  = (Sample.host0, inr Sample.command0).
Proof. reflexivity. Qed.

(** A fresh object: not started, no process, no pid, no exit code, an
    empty history.  The runtime only gained a log line. *)
Lemma constructor_fresh d s r r' c :
  constructor idGenerator d s r = (r', inr c) ->
  status c = NOT_STARTED /\ childProcess c = None /\ pid c = None /\
  exitCode c = None /\ history c = [] /\ startDate c = None /\
  children r' = children r /\ inputListeners r' = inputListeners r /\ clock r' = clock r.
Proof.
  unfold constructor. intros H.
  destruct (commandDescriptorSchema_safeParse d); [|discriminate].
  destruct (runCommandArgsSchema_safeParse s).
  - injection H as <- <-. repeat split; reflexivity.
  - destruct s; discriminate.
Qed.

(** A descriptor the schema refuses is answered by a [ValidationError]; no
    object comes back and no process is spawned. *)
Lemma constructor_rejects_descriptor d s r :
  commandDescriptorSchema_safeParse d = None ->
  exists r', constructor idGenerator d s r
             = (r', inl (ValidationError
                           "Could not create command instance: command descriptor not provided"
                           (DataJson d))) /\
             children r' = children r.
Proof.
  intros H. unfold constructor. rewrite H. eexists. split; reflexivity.
Qed.

(** A descriptor without [command] is one of them. *)
Lemma schema_requires_command d :
  Raw.command d = None -> commandDescriptorSchema_safeParse (Some d) = None.
Proof. intros H. unfold commandDescriptorSchema_safeParse. rewrite H. reflexivity. Qed.

(** So is a bundle of channels that is an object the schema refuses. *)
Lemma constructor_rejects_streams d s r :
  is_Some (commandDescriptorSchema_safeParse d) ->
  runCommandArgsSchema_safeParse (Some s) = None ->
  exists r', constructor idGenerator d (Some s) r
             = (r', inl (ValidationError
                           "Could not create command instance: IO streams not provided"
                           (DataText "[object Object]"))) /\
             children r' = children r.
Proof.
  intros [d' Hd] Hs. unfold constructor. rewrite Hd, Hs. eexists. split; reflexivity.
Qed.

(** C7, at the input where the code departs from it: with a valid
    descriptor and no bundle of channels at all ([undefined]), the schema
    refuses the bundle, but building the log line calls [toString] on it
    and the caller gets a [TypeError], not a [ValidationError].  Still no
    object is created and no process is spawned.  A descriptor without
    [command] is refused with a [ValidationError]. *)
Theorem constructor_without_streams :
  runCommandArgsSchema_safeParse None = None /\
  constructor idGenerator (Some Sample.descriptor) None Sample.host
  = (Sample.host, inl (TypeError "Cannot read properties of undefined (reading 'toString')")) /\
  constructor idGenerator (Some Sample.noCommand) (Some Sample.channels) Sample.host
  = (set_logs [Log LevelError "Cound not create command instance: command descriptor not provided"
                 (DataJson (Some Sample.noCommand))] Sample.host,
     inl (ValidationError "Could not create command instance: command descriptor not provided"
            (DataJson (Some Sample.noCommand)))).
Proof. repeat split. Qed.

End Construction.

(** ** What the building blocks leave alone *)

Section Frames.

Lemma onChild_this f w : this (onChild f w) = this w.
Proof. unfold onChild. destruct (childProcess (this w)); reflexivity. Qed.

Lemma onChild_without_process f w : childProcess (this w) = None -> onChild f w = w.
Proof. unfold onChild. intros ->. reflexivity. Qed.

Lemma onChild_children f w :
  children (runtime (onChild f w))
  = match childProcess (this w) with
    | Some i => alter f i (children (runtime w))
    | None => children (runtime w)
    end.
Proof. unfold onChild. destruct (childProcess (this w)); reflexivity. Qed.

(** Apart from the child processes, [onChild] changes nothing of the
    runtime: with the processes put aside, the runtime is the same. *)
Lemma onChild_runtime f w :
  set_children [] (runtime (onChild f w)) = set_children [] (runtime w).
Proof. unfold onChild. destruct (childProcess (this w)); reflexivity. Qed.

Lemma removeAll_fold_this events w :
  this (fold_left (fun w ev => onChild (removeAllListeners ev) w) events w) = this w.
Proof.
  revert w. induction events as [|ev events IH]; intros w; simpl; [reflexivity|].
  rewrite IH. apply onChild_this.
Qed.

Lemma removeAll_fold_runtime events w :
  set_children []
    (runtime (fold_left (fun w ev => onChild (removeAllListeners ev) w) events w))
  = set_children [] (runtime w).
Proof.
  revert w. induction events as [|ev events IH]; intros w; simpl; [reflexivity|].
  rewrite IH. apply onChild_runtime.
Qed.

Lemma removeAllEventListeners_this event w :
  this (removeAllEventListeners event w) = this w.
Proof.
  unfold removeAllEventListeners.
  destruct (childProcess (this w)); [|reflexivity].
  destruct event as [ev|]; [destruct (String.eqb ev "")|];
    auto using removeAll_fold_this, onChild_this.
Qed.

Lemma removeAllEventListeners_runtime event w :
  set_children [] (runtime (removeAllEventListeners event w)) = set_children [] (runtime w).
Proof.
  unfold removeAllEventListeners.
  destruct (childProcess (this w)); [|reflexivity].
  destruct event as [ev|]; [destruct (String.eqb ev "")|];
    auto using removeAll_fold_runtime, onChild_runtime.
Qed.

(** An ['error'] of a stream changes nothing. *)
Lemma deliverStreamError_world child stream err w :
  fst (deliverStreamError child stream err w) = w.
Proof. unfold deliverStreamError. destruct (children (runtime w) !! child); reflexivity. Qed.

Lemma touched_refl e c : touched e c c.
Proof.
  exists (status c), (exitCode c), []. rewrite app_nil_r.
  split; [destruct c; reflexivity|]. split; [left; reflexivity|].
  destruct e; auto.
Qed.

Lemma touched_trans e c1 c2 c3 : touched e c1 c2 -> touched e c2 c3 -> touched e c1 c3.
Proof.
  intros (st & code & more & -> & Hst & He) (st' & code' & more' & -> & Hst' & He').
  exists st', code', (more ++ more')%list. simpl in *. rewrite <- app_assoc.
  split; [reflexivity|]. split.
  - destruct Hst' as [->|?]; auto.
  - destruct e; try (subst; reflexivity).
    destruct He as [-> ->], He' as [-> ->]. auto.
Qed.

Lemma exitStatus_terminal code signal : isTerminal (exitStatus code signal) = true.
Proof.
  unfold exitStatus.
  destruct (signalIs signal "SIGKILL"); [reflexivity|].
  destruct (signalIs signal "SIGTERM"); [reflexivity|].
  destruct code as [n|]; [|reflexivity].
  destruct (negb (n =? 0) && (0 <? n)); reflexivity.
Qed.

Lemma call_this l e w : touched e (this w) (this (call l e w)).
Proof.
  destruct l, e; try apply touched_refl; simpl.
  - exists (exitStatus code signal), code, []. rewrite app_nil_r.
    split; [destruct w as [? []]; reflexivity|].
    split; [right; apply exitStatus_terminal | reflexivity].
  - exists STOPPED, (exitCode (this w)), []. rewrite app_nil_r.
    split; [destruct w as [? []]; reflexivity|]. split; [right|]; reflexivity.
  - eexists (status (this w)), (exitCode (this w)), [_].
    split; [destruct w as [? []]; reflexivity|]. auto.
  - eexists (status (this w)), (exitCode (this w)), [_].
    split; [destruct w as [? []]; reflexivity|]. auto.
  - eexists (status (this w)), (exitCode (this w)), [_].
    unfold onInputData, push. simpl. rewrite onChild_this.
    split; [destruct w as [? []]; reflexivity|]. auto.
Qed.

Lemma emit_this ls e w : touched e (this w) (this (emit ls e w)).
Proof.
  revert w. induction ls as [|l ls IH]; intros w; simpl; [apply touched_refl|].
  eapply touched_trans; [apply call_this | apply IH].
Qed.

Lemma after_nil w : after [] w = w.
Proof. reflexivity. Qed.

Lemma after_cons a script w : after (a :: script) w = after script (fst (step a w)).
Proof.
  unfold after. simpl. destruct (step a w) as [w1 thrown]. simpl.
  destruct (exec script w1). reflexivity.
Qed.

Lemma after_app s1 s2 w : after (s1 ++ s2)%list w = after s2 (after s1 w).
Proof.
  revert w. induction s1 as [|a s1 IH]; intros w; [reflexivity|].
  rewrite <- app_comm_cons, !after_cons. apply IH.
Qed.

(** Whatever happens, short of a [run()] that spawns, the object changes
    only in its status, exit code, history, parameters and start date;
    the status stays or becomes one of the final four. *)
Lemma step_this a w :
  isSpawn a = false ->
  exists st code more ps started,
    this (fst (step a w))
    = set_startDate started (set_parameters ps
        (set_history (history (this w) ++ more) (set_exitCode code (set_status st (this w))))) /\
    (st = status (this w) \/ isTerminal st = true) /\
    (isProcessEvent a = false -> st = status (this w) /\ code = exitCode (this w)).
Proof.
  intros Ha.
  assert (Hfrom : forall c', touched (EmitData "") (this w) c' \/
                             (isProcessEvent a = true /\ exists e, touched e (this w) c') ->
            exists st code more ps started,
              c' = set_startDate started (set_parameters ps
                     (set_history (history (this w) ++ more)
                        (set_exitCode code (set_status st (this w))))) /\
              (st = status (this w) \/ isTerminal st = true) /\
              (isProcessEvent a = false -> st = status (this w) /\ code = exitCode (this w))).
  { intros c' [(st & code & more & -> & Hst & -> & ->)|[Hp (e & st & code & more & -> & Hst & _)]].
    - exists (status (this w)), (exitCode (this w)), more, (parameters (this w)), (startDate (this w)).
      split; [destruct w as [? []]; reflexivity|]. auto.
    - exists st, code, more, (parameters (this w)), (startDate (this w)).
      split; [destruct w as [? []]; reflexivity|]. split; [exact Hst|]. congruence. }
  assert (Hsame : forall c', c' = this w ->
            exists st code more ps started,
              c' = set_startDate started (set_parameters ps
                     (set_history (history (this w) ++ more)
                        (set_exitCode code (set_status st (this w))))) /\
              (st = status (this w) \/ isTerminal st = true) /\
              (isProcessEvent a = false -> st = status (this w) /\ code = exitCode (this w))).
  { intros c' ->. apply Hfrom. left. apply touched_refl. }
  destruct a as [ms|r| | |ps|event listener|event|child e|child chunk|child chunk|chunk|child stream err]; simpl.
  - apply Hsame. reflexivity.
  - destruct r as [err|pid']; [|discriminate]. simpl.
    exists (status (this w)), (exitCode (this w)), [], (parameters (this w)),
      (Some (clock (runtime w))).
    rewrite app_nil_r. split; [destruct w as [? []]; reflexivity|]. auto.
  - apply Hsame. unfold stop. rewrite onChild_this. reflexivity.
  - apply Hsame. unfold kill. rewrite onChild_this. reflexivity.
  - exists (status (this w)), (exitCode (this w)), [], ps, (startDate (this w)).
    rewrite app_nil_r. split; [destruct w as [? []]; reflexivity|]. auto.
  - apply Hsame. unfold onEvent. apply onChild_this.
  - apply Hsame. apply removeAllEventListeners_this.
  - apply Hfrom. right. split; [reflexivity|]. unfold deliver.
    destruct (children (runtime w) !! child) as [p|]; [|exists (EmitData ""); apply touched_refl].
    destruct e as [code signal|err]; simpl.
    + eexists. apply emit_this.
    + destruct (listenersOf "error" (listeners p)) as [|l ls] eqn:E;
        [exists (EmitData ""); apply touched_refl|].
      eexists. apply (emit_this (l :: ls)).
  - apply Hfrom. left. unfold deliverStdout.
    destruct (children (runtime w) !! child); [|apply touched_refl].
    eapply touched_trans; [apply touched_refl|].
    destruct (emit_this (stdoutListeners c) (EmitData chunk) w) as (st & code & more & H).
    exists st, code, more. exact H.
  - apply Hfrom. left. unfold deliverStderr.
    destruct (children (runtime w) !! child); [|apply touched_refl].
    destruct (emit_this (stderrListeners c) (EmitData chunk) w) as (st & code & more & H).
    exists st, code, more. exact H.
  - apply Hfrom. left. unfold deliverInput.
    destruct (emit_this (inputListeners (runtime w)) (EmitData chunk) w) as (st & code & more & H).
    exists st, code, more. exact H.
  - apply Hsame. rewrite deliverStreamError_world. reflexivity.
Qed.

End Frames.

(** ** The life cycle *)

Section Lifecycle.

Lemma running_status : status (this Sample.running) = RUNNING.
Proof. reflexivity. Qed.

(** A [run()] whose [spawn] returns sets the status to [RUNNING], records
    the process and its pid, and throws nothing. *)
Lemma run_spawns pid' w :
  exists w', run (SpawnReturns pid') w = (w', None) /\
             status (this w') = RUNNING /\ pid (this w') = pid' /\
             childProcess (this w') = Some (length (children (runtime w))) /\
             startDate (this w') = Some (clock (runtime w)) /\
             history (this w') = history (this w) /\
             exitCode (this w') = exitCode (this w).
Proof.
  eexists. split; [reflexivity|].
  unfold registerIoEvent, eventsListener. simpl. repeat split; reflexivity.
Qed.

(** Short of a [run()] that spawns, no action gives the object a process. *)
Lemma step_childProcess a w :
  isSpawn a = false -> childProcess (this (fst (step a w))) = childProcess (this w).
Proof.
  intros Ha. destruct (step_this a w Ha) as (st & code & more & ps & started & -> & _).
  reflexivity.
Qed.

Lemma after_childProcess script w :
  noSpawn script = true -> childProcess (this (after script w)) = childProcess (this w).
Proof.
  revert w. induction script as [|a script IH]; intros w H; [reflexivity|].
  simpl in H. apply andb_prop in H as [Ha Hs]. apply negb_true_iff in Ha.
  rewrite after_cons, IH by exact Hs. apply step_childProcess. exact Ha.
Qed.

Lemma step_terminal a w :
  isSpawn a = false ->
  isTerminal (status (this w)) = true ->
  isTerminal (status (this (fst (step a w)))) = true.
Proof.
  intros Ha Hw. destruct (step_this a w Ha) as (st & code & more & ps & started & -> & Hst & _).
  simpl. destruct Hst as [->|?]; assumption.
Qed.

Lemma step_status a w :
  isSpawn a = false -> isProcessEvent a = false ->
  status (this (fst (step a w))) = status (this w) /\
  exitCode (this (fst (step a w))) = exitCode (this w).
Proof.
  intros Ha Hp. destruct (step_this a w Ha) as (st & code & more & ps & started & -> & _ & H).
  destruct (H Hp) as [-> ->]. split; reflexivity.
Qed.

(** C4: when [spawn] throws inside [run()] on an object that is
    [NOT_STARTED], the caller gets a [ProcessError] wrapping the error of
    [spawn], the status is still [NOT_STARTED], and the object has no
    process and no pid it had not before. *)
Theorem run_spawn_failure_keeps_status (w : World) (err : JsError) :
  status (this w) = NOT_STARTED ->
  exists w',
    run (SpawnThrows err) w
    = (w', Some (ProcessError "A problem occurred when running the process"
                   (DataText "[object Object]") err)) /\
    status (this w') = NOT_STARTED /\
    childProcess (this w') = childProcess (this w) /\
    pid (this w') = pid (this w) /\
    children (runtime w') = children (runtime w).
Proof.
  intros H. eexists. split; [reflexivity|]. simpl. repeat split. exact H.
Qed.

Lemma run_spawn_failure_keeps_status_witness :
  status (this Sample.created) = NOT_STARTED /\
  exists w',
    run (SpawnThrows (SystemError "spawn EPERM")) Sample.created
    = (w', Some (ProcessError "A problem occurred when running the process"
                   (DataText "[object Object]") (SystemError "spawn EPERM"))) /\
    status (this w') = NOT_STARTED /\
    childProcess (this w') = childProcess (this Sample.created) /\
    pid (this w') = pid (this Sample.created) /\
    children (runtime w') = children (runtime Sample.created).
Proof.
  split; [reflexivity|].
  apply (run_spawn_failure_keeps_status Sample.created (SystemError "spawn EPERM")).
  reflexivity.
Defined.

(** C8 as stated fails: on a running object [setParameters] is neither
    rejected nor without effect. *)
Lemma setParameters_while_running :
  status (this Sample.running) = RUNNING /\
  snd (step (SetParameters [Literal "--other"]) Sample.running) = None /\
  getParameters (fst (step (SetParameters [Literal "--other"]) Sample.running))
  = [Literal "--other"] /\
  getParameters Sample.running <> [Literal "--other"].
Proof. repeat split. discriminate. Qed.

(** C8, as the code has it: [setParameters] replaces the stored
    parameters in every state, throws nothing and changes nothing else. *)
Theorem setParameters_always_replaces (w : World) (ps : list CommandParameter) :
  step (SetParameters ps) w = (setParameters ps w, None) /\
  getParameters (setParameters ps w) = ps /\
  this (setParameters ps w) = set_parameters ps (this w) /\
  runtime (setParameters ps w) = runtime w /\
  getStatus (setParameters ps w) = getStatus w.
Proof. repeat split. Qed.

(** C10: on an object that was constructed and on which no [run()] has
    spawned a process since, whatever else happened, [stop()] and [kill()]
    throw nothing, leave the object as it is (status, exit code, history
    and pid included) and send no signal: the processes of the runtime are
    untouched and only a debug line is logged. *)
Theorem stop_kill_without_process (idGenerator : string) (d : option Raw.Descriptor)
    (s : option Raw.Streams) (r r' : Runtime) (c : Command) (script : list Action) (a : Action) :
  constructor idGenerator d s r = (r', inr c) ->
  noSpawn script = true ->
  a = Stop \/ a = Kill ->
  let w := after script (world r' c) in
  exists w' line,
    step a w = (w', None) /\
    this w' = this w /\
    status (this w') = status (this w) /\ exitCode (this w') = exitCode (this w) /\
    history (this w') = history (this w) /\ pid (this w') = pid (this w) /\
    children (runtime w') = children (runtime w) /\
    runtime w' = set_logs (logs (runtime w) ++ [Log LevelDebug line NoData]) (runtime w).
Proof.
  intros Hc Hs Ha w.
  assert (Hnone : childProcess (this w) = None).
  { unfold w. rewrite after_childProcess by exact Hs.
    apply constructor_fresh in Hc. apply Hc. }
  destruct Ha as [-> | ->]; simpl.
  - exists (stop w), ("Stopping command " +:+ nameAlias (this w)).
    unfold stop. rewrite onChild_without_process by exact Hnone.
    repeat split.
  - exists (kill w), ("Killing command " +:+ nameAlias (this w)).
    unfold kill. rewrite onChild_without_process by exact Hnone.
    repeat split.
Qed.

Lemma stop_kill_without_process_witness :
  let w := after [SetParameters [Literal "-v"]; Run (SpawnThrows (SystemError "spawn EPERM"));
                  InputData "y"; Tick 10]
             (world Sample.host0 Sample.command0) in
  exists w' line,
    step Kill w = (w', None) /\
    this w' = this w /\
    status (this w') = status (this w) /\ exitCode (this w') = exitCode (this w) /\
    history (this w') = history (this w) /\ pid (this w') = pid (this w) /\
    children (runtime w') = children (runtime w) /\
    runtime w' = set_logs (logs (runtime w) ++ [Log LevelDebug line NoData]) (runtime w).
Proof.
  apply (stop_kill_without_process "generated-id" (Some Sample.descriptor)
           (Some Sample.channels) Sample.host Sample.host0 Sample.command0
           [SetParameters [Literal "-v"]; Run (SpawnThrows (SystemError "spawn EPERM"));
            InputData "y"; Tick 10] Kill).
  - reflexivity.
  - reflexivity.
  - right. reflexivity.
Defined.

(** C2 as stated fails: an object stopped by an ['error'] event of its
    process is in a final state, and the ['exit'] event that follows still
    changes its status. *)
Lemma terminal_status_overwritten :
  let stopped := after [ProcessEmits 0 (Failure (SystemError "kill EPERM"))] Sample.running in
  status (this stopped) = STOPPED /\
  isTerminal (status (this stopped)) = true /\
  status (this (after [ProcessEmits 0 (Exit (Some 0) None)] stopped)) = FINISHED /\
  status (this (after [ProcessEmits 0 (Exit (Some 0) None)] stopped)) <> status (this stopped).
Proof. repeat split. discriminate. Qed.

(** C2, as the code has it: a constructed object is [NOT_STARTED]; a
    [run()] that spawns makes it [RUNNING]; once the status is one of the
    final four it stays among them (it never is [NOT_STARTED] or [RUNNING]
    again) through every sequence of events and operations in which no
    further [run()] spawns a process, though a later exit or error event
    may replace one final status by another; and actions other than
    process events and such a [run()] leave the status as it is. *)
Theorem status_life_cycle :
  (forall idGenerator d s r r' c,
     constructor idGenerator d s r = (r', inr c) -> status c = NOT_STARTED) /\
  (forall w pid', status (this (fst (run (SpawnReturns pid') w))) = RUNNING /\
                  snd (run (SpawnReturns pid') w) = None) /\
  (forall w script,
     noSpawn script = true ->
     isTerminal (status (this w)) = true ->
     isTerminal (status (this (after script w))) = true) /\
  (forall w script,
     noSpawn script = true -> noProcessEvent script = true ->
     status (this (after script w)) = status (this w)).
Proof.
  split; [|split; [|split]].
  - intros idGenerator d s r r' c H. apply constructor_fresh in H. apply H.
  - intros w pid'. destruct (run_spawns pid' w) as (w' & -> & H & _). auto.
  - intros w script. revert w.
    induction script as [|a script IH]; intros w Hs Hw; [exact Hw|].
    simpl in Hs. apply andb_prop in Hs as [Ha Hs]. apply negb_true_iff in Ha.
    rewrite after_cons. apply IH; [exact Hs|]. apply step_terminal; assumption.
  - intros w script. revert w.
    induction script as [|a script IH]; intros w Hs Hp; [reflexivity|].
    simpl in Hs, Hp. apply andb_prop in Hs as [Ha Hs]. apply andb_prop in Hp as [Ha' Hp].
    apply negb_true_iff in Ha, Ha'.
    rewrite after_cons, IH by assumption. apply step_status; assumption.
Qed.

Lemma status_life_cycle_witness :
  status Sample.command0 = NOT_STARTED /\
  status (this Sample.running) = RUNNING /\
  isTerminal (status (this (after [Stop; ProcessEmits 0 (Exit (Some 0) None); Kill;
                                   Run (SpawnThrows (SystemError "spawn EPERM"))]
                             (after [ProcessEmits 0 (Failure (SystemError "kill EPERM"))]
                                Sample.running)))) = true /\
  status (this (after [Stop; Tick 3; SetParameters []; StdoutData 0 "late"] Sample.running))
  = RUNNING.
Proof.
  destruct status_life_cycle as (Hnew & Hrun & Hfinal & Hsame).
  split; [|split; [|split]].
  - apply (Hnew "generated-id" (Some Sample.descriptor) (Some Sample.channels)
             Sample.host Sample.host0 Sample.command0). reflexivity.
  - apply (Hrun Sample.created (Some 4242)).
  - apply Hfinal; reflexivity.
  - rewrite Hsame; reflexivity.
Defined.

End Lifecycle.

(** ** How the process objects change *)

Section Related.

Variable R : ChildProcess -> ChildProcess -> Prop.
Hypothesis R_refl : forall p, R p p.
Hypothesis R_trans : forall p q r, R p q -> R q r -> R p r.
Hypothesis R_stdin : forall p v, R p (set_stdinWritten v p).

Lemma related_refl (l : list ChildProcess) : Forall2 R l l.
Proof. induction l; constructor; auto. Qed.

Lemma related_trans (l1 l2 l3 : list ChildProcess) :
  Forall2 R l1 l2 -> Forall2 R l2 l3 -> Forall2 R l1 l3.
Proof. apply Forall2_trans. exact R_trans. Qed.

Lemma onChild_related f w :
  (forall p, R p (f p)) ->
  Forall2 R (children (runtime w)) (children (runtime (onChild f w))).
Proof.
  intros Hf. rewrite onChild_children.
  destruct (childProcess (this w)) as [i|]; [|apply related_refl].
  apply Forall2_alter_r; [apply related_refl|].
  intros x y _ _ Hxy. eapply R_trans; [exact Hxy | apply Hf].
Qed.

Lemma call_related l e w :
  Forall2 R (children (runtime w)) (children (runtime (call l e w))).
Proof.
  destruct l, e; try apply related_refl.
  simpl. unfold onInputData, push. simpl. apply onChild_related. intros p. apply R_stdin.
Qed.

Lemma emit_related ls e w :
  Forall2 R (children (runtime w)) (children (runtime (emit ls e w))).
Proof.
  revert w. induction ls as [|l ls IH]; intros w; simpl; [apply related_refl|].
  eapply related_trans; [apply call_related | apply IH].
Qed.

Lemma removeAll_fold_related events w :
  (forall ev p, R p (removeAllListeners ev p)) ->
  Forall2 R (children (runtime w))
    (children (runtime (fold_left (fun w ev => onChild (removeAllListeners ev) w) events w))).
Proof.
  intros Hr. revert w. induction events as [|ev events IH]; intros w; simpl;
    [apply related_refl|].
  eapply related_trans; [apply onChild_related; intros p; apply Hr | apply IH].
Qed.

End Related.

Section Runtime.

Lemma alter_last {A} (f : A -> A) (l : list A) (x : A) :
  alter f (length l) (l ++ [x])%list = (l ++ [f x])%list.
Proof.
  rewrite alter_app_r_alt by lia. rewrite Nat.sub_diag. reflexivity.
Qed.


(** The listeners of the class leave the clock and the listeners of the
    input channel alone. *)
Lemma call_runtime l e w :
  clock (runtime (call l e w)) = clock (runtime w) /\
  inputListeners (runtime (call l e w)) = inputListeners (runtime w).
Proof.
  destruct l, e; try (split; reflexivity).
  simpl. unfold onInputData, push. simpl.
  pose proof (onChild_runtime
                (fun p => set_stdinWritten (stdinWritten p ++ [chunk]) p) w) as H.
  split; [apply (f_equal clock) in H | apply (f_equal inputListeners) in H]; exact H.
Qed.

Lemma emit_runtime ls e w :
  clock (runtime (emit ls e w)) = clock (runtime w) /\
  inputListeners (runtime (emit ls e w)) = inputListeners (runtime w).
Proof.
  revert w. induction ls as [|l ls IH]; intros w; simpl; [split; reflexivity|].
  destruct (IH (call l e w)) as [-> ->]. apply call_runtime.
Qed.



(** What a [run()] that spawns adds to the runtime: one process with the
    two observers and the two recorders, and one recorder on the input
    channel. *)
Lemma run_children pid' w :
  exists p,
    children (runtime (fst (run (SpawnReturns pid') w))) = (children (runtime w) ++ [p])%list /\
    listeners p = [("exit", ExitObserver); ("error", ErrorObserver)] /\
    stdoutListeners p = [StdoutRecorder] /\ stderrListeners p = [StderrRecorder] /\
    inputListeners (runtime (fst (run (SpawnReturns pid') w)))
    = (inputListeners (runtime w) ++ [InputRecorder])%list /\
    clock (runtime (fst (run (SpawnReturns pid') w))) = clock (runtime w).
Proof.
  eexists. unfold run, registerIoEvent, eventsListener. simpl.
  rewrite !alter_last. split; [reflexivity|]. repeat split.
Qed.

End Runtime.

(** ** The exit and error observers *)

Section Observers.

Lemma listenersOf_app name table1 table2 :
  listenersOf name (table1 ++ table2)%list
  = (listenersOf name table1 ++ listenersOf name table2)%list.
Proof.
  induction table1 as [|[n l] table1 IH]; simpl; [reflexivity|].
  destruct (String.eqb n name); simpl; rewrite IH; reflexivity.
Qed.










End Observers.

(** ** The history *)

Section History.

Lemma keepsRecorders_refl p : keepsRecorders p p.
Proof. split; reflexivity. Qed.

Lemma keepsRecorders_trans p q r :
  keepsRecorders p q -> keepsRecorders q r -> keepsRecorders p r.
Proof. unfold keepsRecorders. intros [-> ->] [-> ->]. split; reflexivity. Qed.

Lemma onChild_recorders f w :
  (forall p, keepsRecorders p (f p)) ->
  Forall2 keepsRecorders (children (runtime w)) (children (runtime (onChild f w))).
Proof.
  apply onChild_related; [apply keepsRecorders_refl | apply keepsRecorders_trans].
Qed.

Lemma emit_recorders ls e w :
  Forall2 keepsRecorders (children (runtime w)) (children (runtime (emit ls e w))).
Proof.
  apply emit_related;
    [apply keepsRecorders_refl | apply keepsRecorders_trans | intros; split; reflexivity].
Qed.

Lemma removeAllEventListeners_recorders event w :
  Forall2 keepsRecorders (children (runtime w))
    (children (runtime (removeAllEventListeners event w))).
Proof.
  assert (Hfold : forall events w,
            Forall2 keepsRecorders (children (runtime w))
              (children (runtime (fold_left (fun w ev => onChild (removeAllListeners ev) w)
                                    events w)))).
  { intros events w0. apply removeAll_fold_related;
      [apply keepsRecorders_refl | apply keepsRecorders_trans | intros; split; reflexivity]. }
  unfold removeAllEventListeners.
  destruct (childProcess (this w)); [|apply related_refl, keepsRecorders_refl].
  destruct event as [ev|]; [destruct (String.eqb ev "")|]; try apply Hfold.
  apply onChild_recorders. intros p. split; reflexivity.
Qed.

(** Short of [run()], nothing changes who records the streams, and only
    a [Tick] moves the clock. *)
Lemma step_recorders a w :
  isRun a = false ->
  inputListeners (runtime (fst (step a w))) = inputListeners (runtime w) /\
  clock (runtime (fst (step a w))) = clock (runtime w) + elapsed a /\
  Forall2 keepsRecorders (children (runtime w)) (children (runtime (fst (step a w)))).
Proof.
  intros Ha.
  assert (Hrefl : Forall2 keepsRecorders (children (runtime w)) (children (runtime w)))
    by apply related_refl, keepsRecorders_refl.
  assert (Hchild : forall f w0,
            (forall p, keepsRecorders p (f p)) ->
            inputListeners (runtime (onChild f w0)) = inputListeners (runtime w0) /\
            clock (runtime (onChild f w0)) = clock (runtime w0) + 0 /\
            Forall2 keepsRecorders (children (runtime w0)) (children (runtime (onChild f w0)))).
  { intros f w0 Hf. pose proof (onChild_runtime f w0) as E.
    split; [apply (f_equal inputListeners) in E; exact E|].
    split; [apply (f_equal clock) in E; simpl in E; lia|].
    apply onChild_recorders. exact Hf. }
  assert (Hemit : forall ls e,
            inputListeners (runtime (emit ls e w)) = inputListeners (runtime w) /\
            clock (runtime (emit ls e w)) = clock (runtime w) + 0 /\
            Forall2 keepsRecorders (children (runtime w)) (children (runtime (emit ls e w)))).
  { intros ls e. destruct (emit_runtime ls e w) as [Hc Hi].
    split; [exact Hi|]. split; [lia|]. apply emit_recorders. }
  destruct a as [ms|r| | |ps|event listener|event|child e|child chunk|child chunk|chunk|child stream err];
    try discriminate; simpl.
  - auto.
  - unfold stop. apply (Hchild _ (logger_debug _ w)). intros p. split; reflexivity.
  - unfold kill. apply (Hchild _ (logger_debug _ w)). intros p. split; reflexivity.
  - split; [reflexivity|]. split; [lia | exact Hrefl].
  - unfold onEvent. apply Hchild. intros p. split; reflexivity.
  - pose proof (removeAllEventListeners_runtime event w) as E.
    split; [apply (f_equal inputListeners) in E; exact E|].
    split; [apply (f_equal clock) in E; simpl in E; lia|].
    apply removeAllEventListeners_recorders.
  - unfold deliver. destruct (children (runtime w) !! child) as [p|];
      [|simpl; split; [reflexivity|]; split; [lia | exact Hrefl]].
    destruct e as [code signal|err]; simpl; [apply Hemit|].
    destruct (listenersOf "error" (listeners p)) as [|l ls];
      [simpl; split; [reflexivity|]; split; [lia | exact Hrefl] | apply (Hemit (l :: ls))].
  - unfold deliverStdout. destruct (children (runtime w) !! child) as [p|];
      [apply Hemit | simpl; split; [reflexivity|]; split; [lia | exact Hrefl]].
  - unfold deliverStderr. destruct (children (runtime w) !! child) as [p|];
      [apply Hemit | simpl; split; [reflexivity|]; split; [lia | exact Hrefl]].
  - unfold deliverInput. apply Hemit.
  - rewrite deliverStreamError_world. simpl. split; [reflexivity|]. split; [lia | exact Hrefl].
Qed.

Lemma step_wired a w : isRun a = false -> wired w -> wired (fst (step a w)).
Proof.
  intros Ha (Hcp & Hin & p & Hch & Hout & Herr).
  destruct (step_recorders a w Ha) as (Hin' & _ & Hrel).
  assert (Hs : isSpawn a = false) by (destruct a; try reflexivity; discriminate).
  split; [rewrite step_childProcess by exact Hs; exact Hcp|].
  split; [congruence|].
  rewrite Hch in Hrel. inversion Hrel as [|? p' ? l' [Ho He] Hnil]; subst.
  inversion Hnil; subst. exists p'. split; [reflexivity|]. split; congruence.
Qed.

(** The first [run()] of an object constructed in a pristine runtime
    leaves it wired. *)
Lemma run_wired idGenerator d s r r' c pid' :
  constructor idGenerator d s r = (r', inr c) ->
  pristine r ->
  wired (fst (run (SpawnReturns pid') (world r' c))) /\
  startDate (this (fst (run (SpawnReturns pid') (world r' c)))) = Some (clock r') /\
  clock (runtime (fst (run (SpawnReturns pid') (world r' c)))) = clock r' /\
  history (this (fst (run (SpawnReturns pid') (world r' c)))) = [].
Proof.
  intros Hc [Hch Hin].
  apply constructor_fresh in Hc.
  destruct Hc as (_ & _ & _ & _ & Hh & _ & Hch' & Hin' & _).
  destruct (run_children pid' (world r' c)) as (p & Hp & _ & Hout & Herr & Hi & Hclock).
  destruct (run_spawns pid' (world r' c)) as (w' & Hrun & _ & _ & Hcp & Hsd & Hhist & _).
  rewrite Hrun in *. simpl in *.
  rewrite Hch', Hch in *. rewrite Hin', Hin in *. simpl in *.
  repeat split; try assumption; try congruence.
  exists p. auto.
Qed.

(** What one action adds to the history of a wired object. *)
Lemma step_history a w :
  isRun a = false -> wired w ->
  history (this (fst (step a w)))
  = (history (this w) ++ expectedHistory 0 (clock (runtime w)) [a])%list /\
  startDate (this (fst (step a w))) = startDate (this w).
Proof.
  intros Ha (Hcp & Hin & p & Hch & Hout & Herr).
  assert (Hevent : forall ls e,
            match e with EmitData _ => False | _ => True end ->
            history (this (emit ls e w)) = (history (this w) ++ [])%list /\
            startDate (this (emit ls e w)) = startDate (this w)).
  { intros ls e He. destruct (emit_this ls e w) as (st & code & more & -> & _ & Hmore).
    destruct e; try destruct He; subst; split; reflexivity. }
  destruct a as [ms|r| | |ps|event listener|event|child e|child chunk|child chunk|chunk|child stream err];
    try discriminate; simpl.
  - rewrite app_nil_r. split; reflexivity.
  - unfold stop. rewrite onChild_this, app_nil_r. split; reflexivity.
  - unfold kill. rewrite onChild_this, app_nil_r. split; reflexivity.
  - rewrite app_nil_r. split; reflexivity.
  - unfold onEvent. rewrite onChild_this, app_nil_r. split; reflexivity.
  - rewrite removeAllEventListeners_this, app_nil_r. split; reflexivity.
  - unfold deliver. destruct (children (runtime w) !! child) as [q|];
      [|rewrite app_nil_r; split; reflexivity].
    destruct e as [code signal|err]; simpl; [apply Hevent; exact I|].
    destruct (listenersOf "error" (listeners q)) as [|l ls];
      [rewrite app_nil_r; split; reflexivity | apply (Hevent (l :: ls)); exact I].
  - unfold deliverStdout. rewrite Hch.
    destruct child as [|child]; simpl; [|rewrite app_nil_r; split; reflexivity].
    rewrite Hout. simpl. split; reflexivity.
  - unfold deliverStderr. rewrite Hch.
    destruct child as [|child]; simpl; [|rewrite app_nil_r; split; reflexivity].
    rewrite Herr. simpl. split; reflexivity.
  - unfold deliverInput. rewrite Hin. simpl. unfold onInputData, push. simpl.
    rewrite onChild_this.
    pose proof (onChild_runtime
                  (fun p => set_stdinWritten (stdinWritten p ++ [chunk]) p) w) as E.
    apply (f_equal clock) in E. simpl in E. rewrite E. split; reflexivity.
  - rewrite deliverStreamError_world, app_nil_r. split; reflexivity.
Qed.

Lemma expectedHistory_cons child now a script :
  expectedHistory child now (a :: script)
  = (expectedHistory child now [a] ++ expectedHistory child (now + elapsed a) script)%list.
Proof.
  destruct a; simpl; rewrite ?Z.add_0_r; try reflexivity;
    destruct (Nat.eqb child0 child); reflexivity.
Qed.

Lemma after_history script w :
  noRun script = true -> wired w ->
  history (this (after script w))
  = (history (this w) ++ expectedHistory 0 (clock (runtime w)) script)%list /\
  startDate (this (after script w)) = startDate (this w).
Proof.
  revert w. induction script as [|a script IH]; intros w Hs Hw.
  - rewrite after_nil. simpl. rewrite app_nil_r. split; reflexivity.
  - simpl in Hs. apply andb_prop in Hs as [Ha Hs]. apply negb_true_iff in Ha.
    rewrite after_cons, expectedHistory_cons.
    destruct (IH (fst (step a w)) Hs (step_wired a w Ha Hw)) as [-> ->].
    destruct (step_history a w Ha Hw) as [-> ->].
    destruct (step_recorders a w Ha) as (_ & -> & _).
    rewrite <- app_assoc. split; reflexivity.
Qed.

(** No expected entry is dated before the start. *)
Lemma expectedHistory_dates child script :
  forall now, Forall (fun e => now <= date e) (expectedHistory child now script).
Proof.
  induction script as [|a script IH]; intros now; [constructor|].
  assert (Hlater : forall ms, Forall (fun e => now <= date e)
                                (expectedHistory child (now + Z.of_N ms) script)).
  { intros ms. eapply Forall_impl; [apply IH|]. simpl. intros e He. lia. }
  destruct a; simpl; try apply IH; try apply Hlater;
    try (destruct (Nat.eqb child0 child); [constructor; [simpl; lia | apply IH] | apply IH]).
  constructor; [simpl; lia | apply IH].
Qed.

(** One entry of each tag per chunk of that kind. *)
Lemma expectedHistory_tagged child script :
  forall now,
    tagged OUT (expectedHistory child now script) = deliveries (isStdoutOf child) script /\
    tagged ERR (expectedHistory child now script) = deliveries (isStderrOf child) script /\
    tagged IN (expectedHistory child now script) = deliveries isInput script.
Proof.
  unfold tagged, deliveries.
  induction script as [|a script IH]; intros now; [repeat split|].
  destruct a; simpl; try apply IH;
    try (destruct (Nat.eqb child0 child); simpl; [|apply IH]);
    destruct (IH now) as (-> & -> & ->); repeat split.
Qed.

(** The history only ever grows at its end, whatever happens. *)
Lemma step_history_grows a w :
  exists more, history (this (fst (step a w))) = (history (this w) ++ more)%list.
Proof.
  destruct (isSpawn a) eqn:Ha.
  - destruct a as [|[|pid']| | | | | | | | | |]; try discriminate.
    exists []. destruct (run_spawns pid' w) as (w' & Hrun & _ & _ & _ & _ & Hh & _).
    change (step (Run (SpawnReturns pid')) w) with (run (SpawnReturns pid') w).
    rewrite Hrun, app_nil_r. exact Hh.
  - destruct (step_this a w Ha) as (st & code & more & ps & started & -> & _).
    exists more. reflexivity.
Qed.

(** Why [run()] must not be called again: a second [run()] puts a second
    recorder on the input channel, and one chunk is recorded twice. *)
Example input_after_second_run :
  history (this (after [Run (SpawnReturns (Some 4242)); Run (SpawnReturns (Some 4243));
                        InputData "y"]
                   (world Sample.host0 Sample.command0)))
  = [ {| data := "y"; date := 1700000000000; type := IN |};
      {| data := "y"; date := 1700000000000; type := IN |} ].
Proof. reflexivity. Qed.

(** C9: an object is constructed in a pristine runtime and [run()]
    spawns its process; any script follows that does not call [run()]
    again.  The history then holds exactly one entry per chunk delivered,
    in delivery order, tagged [OUT] for a chunk of the standard output of
    the process, [ERR] for one of its standard error and [IN] for one of
    the input channel, so as many of each tag as chunks of that kind; the
    start date is the time of the [run()] and no entry is dated before it;
    and whatever happens to an object, its history only grows at the end,
    the entries it has staying as they are. *)
Theorem history_records_deliveries (idGenerator : string) (d : option Raw.Descriptor)
    (s : option Raw.Streams) (r r' : Runtime) (c : Command) (pid' : option Z)
    (script : list Action) :
  constructor idGenerator d s r = (r', inr c) ->
  pristine r ->
  noRun script = true ->
  let w := after (Run (SpawnReturns pid') :: script) (world r' c) in
  history (this w) = expectedHistory 0 (clock r') script /\
  tagged OUT (history (this w)) = deliveries (isStdoutOf 0) script /\
  tagged ERR (history (this w)) = deliveries (isStderrOf 0) script /\
  tagged IN (history (this w)) = deliveries isInput script /\
  startDate (this w) = Some (clock r') /\
  Forall (fun e => clock r' <= date e) (history (this w)) /\
  (forall w0 a, exists more,
      history (this (fst (step a w0))) = (history (this w0) ++ more)%list).
Proof.
  intros Hc Hr Hs w.
  destruct (run_wired _ _ _ _ _ _ pid' Hc Hr) as (Hw & Hsd & Hclock & Hh).
  assert (Hhist : history (this w) = expectedHistory 0 (clock r') script /\
                  startDate (this w) = Some (clock r')).
  { unfold w. rewrite after_cons.
    change (step (Run (SpawnReturns pid')) (world r' c))
      with (run (SpawnReturns pid') (world r' c)).
    destruct (after_history script _ Hs Hw) as [-> ->].
    rewrite Hh, Hclock, Hsd. split; reflexivity. }
  destruct Hhist as [-> ->].
  destruct (expectedHistory_tagged 0 script (clock r')) as (Hout & Herr & Hin).
  repeat split; try assumption.
  - apply expectedHistory_dates.
  - intros w0 a. apply step_history_grows.
Qed.

Lemma history_records_deliveries_witness :
  let script := [StdoutData 0 "name? "; Tick 1500; InputData "bob"; Stop; StderrData 0 "warn";
                 Tick 20; StdoutData 0 "hello bob"; ProcessEmits 0 (Exit (Some 0) None)] in
  let w := after (Run (SpawnReturns (Some 4242)) :: script)
             (world Sample.host0 Sample.command0) in
  history (this w) = expectedHistory 0 (clock Sample.host0) script /\
  tagged OUT (history (this w)) = deliveries (isStdoutOf 0) script /\
  tagged ERR (history (this w)) = deliveries (isStderrOf 0) script /\
  tagged IN (history (this w)) = deliveries isInput script /\
  startDate (this w) = Some (clock Sample.host0) /\
  Forall (fun e => clock Sample.host0 <= date e) (history (this w)) /\
  (forall w0 a, exists more,
      history (this (fst (step a w0))) = (history (this w0) ++ more)%list).
Proof.
  apply (history_records_deliveries "generated-id" (Some Sample.descriptor)
           (Some Sample.channels) Sample.host Sample.host0 Sample.command0 (Some 4242)
           [StdoutData 0 "name? "; Tick 1500; InputData "bob"; Stop; StderrData 0 "warn";
            Tick 20; StdoutData 0 "hello bob"; ProcessEmits 0 (Exit (Some 0) None)]).
  - reflexivity.
  - split; reflexivity.
  - reflexivity.
Defined.

Example sample_history :
  history (this (after [Run (SpawnReturns (Some 4242)); StdoutData 0 "name? "; Tick 1500;
                        InputData "bob"; StderrData 0 "warn"]
                   (world Sample.host0 Sample.command0)))
  = [ {| data := "name? "; date := 1700000000000; type := OUT |};
      {| data := "bob"; date := 1700000001500; type := IN |};
      {| data := "warn"; date := 1700000001500; type := ERR |} ].
Proof. reflexivity. Qed.

End History.

(** ** More on the parameter resolver *)

Section ResolverMore.

Lemma unescapedAt_O prev c s :
  unescapedAt prev (String c s) 0 <-> isDollar c = true /\ prev = false.
Proof.
  unfold unescapedAt, isDollar. simpl. rewrite Ascii.eqb_eq.
  split; intros [H1 H2]; split; congruence.
Qed.

Lemma unescapedAt_S prev c s j :
  unescapedAt prev (String c s) (S j) <-> unescapedAt (isBackslash c) s j.
Proof.
  unfold unescapedAt. simpl. destruct j as [|k]; simpl; [|tauto].
  unfold isBackslash. split; intros [H1 H2]; (split; [exact H1|]).
  - apply Ascii.eqb_neq. congruence.
  - apply Ascii.eqb_neq in H2. congruence.
Qed.

Lemma replaceRule_exec_spec s :
  forall prev,
    match replaceRule_exec prev s with
    | Some (before, rest) =>
        s = before +:+ "$" +:+ rest /\
        unescapedAt prev s (String.length before) /\
        forall j, (j < String.length before)%nat -> ~ unescapedAt prev s j
    | None => forall j, ~ unescapedAt prev s j
    end.
Proof.
  induction s as [|c s IH]; intros prev; simpl.
  - intros j [H _]. destruct j; discriminate.
  - destruct (isDollar c && negb prev) eqn:E.
    + apply andb_prop in E as [Hc Hp]. apply negb_true_iff in Hp.
      split; [|split].
      * unfold isDollar in Hc. apply Ascii.eqb_eq in Hc. subst c. reflexivity.
      * apply unescapedAt_O. auto.
      * simpl. intros j Hj. lia.
    + specialize (IH (isBackslash c)).
      assert (H0 : ~ unescapedAt prev (String c s) 0).
      { rewrite unescapedAt_O. intros [Hc Hp]. rewrite Hc, Hp in E. discriminate. }
      destruct (replaceRule_exec (isBackslash c) s) as [[before rest]|].
      * destruct IH as (Hs & Hat & Hleft). split; [|split].
        -- rewrite Hs at 1. reflexivity.
        -- simpl. apply unescapedAt_S. exact Hat.
        -- simpl. intros [|j] Hj; [exact H0|].
           rewrite unescapedAt_S. apply Hleft. lia.
      * intros [|j]; [exact H0|]. rewrite unescapedAt_S. apply IH.
Qed.

(** X1: the pattern of the resolver finds the leftmost [$] that is the
    first character of the template or follows a character other than a
    backslash, and splits the template around it; it finds nothing exactly
    when the template has no such [$]. *)
Theorem replaceRule_finds_leftmost_unescaped (template : string) :
  match replaceRule_exec false template with
  | Some (before, rest) =>
      template = before +:+ "$" +:+ rest /\
      unescapedAt false template (String.length before) /\
      forall j, (j < String.length before)%nat -> ~ unescapedAt false template j
  | None => forall j, ~ unescapedAt false template j
  end.
Proof. apply replaceRule_exec_spec. Qed.

(** X2: when every answer is given and holds no [$], the resolver
    returns one string per parameter, in order: a literal as it is; for an
    input object the template with its first unescaped marker, and only
    that one, replaced by the answer, or the answer alone when the template
    has no unescaped marker. *)
Theorem resolve_plain_answers (params : list CommandParameter) :
  forallb plainAnswer params = true ->
  Forall2 (fun param value =>
             match param with
             | Literal text => value = JsString text
             | Input template answer =>
                 match replaceRule_exec false template with
                 | Some (before, rest) =>
                     template = before +:+ "$" +:+ rest /\
                     value = JsString (before +:+ ToString answer +:+ rest)
                 | None => value = JsString (ToString answer)
                 end
             end)
          params (resolveCommandParameters params).
Proof.
  induction params as [|param params IH]; intros H; simpl in *; [constructor|].
  apply andb_prop in H as [Hp Hs]. constructor; [|apply IH; exact Hs].
  destruct param as [text|template [a|]]; simpl in Hp; try discriminate; [reflexivity|].
  unfold resolveParameter, String_match, String_replace.
  destruct (replaceRule_exec false template) as [[before rest]|] eqn:E; [|reflexivity].
  split; [eapply replaceRule_exec_split; exact E|].
  simpl. rewrite GetSubstitution_plain by exact Hp. reflexivity.
Qed.

Lemma resolve_plain_answers_witness :
  Forall2 (fun param value =>
             match param with
             | Literal text => value = JsString text
             | Input template answer =>
                 match replaceRule_exec false template with
                 | Some (before, rest) =>
                     template = before +:+ "$" +:+ rest /\
                     value = JsString (before +:+ ToString answer +:+ rest)
                 | None => value = JsString (ToString answer)
                 end
             end)
          [Literal "-n"; Input "\$a=$ b=$" (Some "X"); Input "plain" (Some "Y")]
          (resolveCommandParameters
             [Literal "-n"; Input "\$a=$ b=$" (Some "X"); Input "plain" (Some "Y")]).
Proof.
  apply (resolve_plain_answers
           [Literal "-n"; Input "\$a=$ b=$" (Some "X"); Input "plain" (Some "Y")]).
  reflexivity.
Defined.

End ResolverMore.

(** ** More on construction *)

Section ConstructionMore.

Lemma orElse_not_empty a b : b <> "" -> orElse a b <> "".
Proof.
  intros Hb. unfold orElse. destruct a as [s|]; [|exact Hb].
  destruct (String.eqb_spec s ""); [exact Hb | assumption].
Qed.

(** X3: an object is only created from a descriptor that is there; it
    takes its command from it, its parameters or none, its description or
    the empty text, and as alias the one given unless that is missing or
    empty, in which case the generated identifier is used, so that the
    alias is not empty when the generated identifier is not.  It runs as
    the user of the host process, and construction logs one debug line. *)
Theorem constructor_defaults (idGenerator : string) (d : option Raw.Descriptor)
    (s : option Raw.Streams) (r r' : Runtime) (c : Command) :
  constructor idGenerator d s r = (r', inr c) ->
  exists raw,
    d = Some raw /\
    Raw.command raw = Some (command c) /\
    parameters c = default [] (Raw.parameters raw) /\
    description c = orElse (Raw.description raw) "" /\
    nameAlias c = orElse (Raw.nameAlias raw) idGenerator /\
    (idGenerator <> "" -> nameAlias c <> "") /\
    runAs c = userInfo r /\
    r' = set_logs (logs r ++ [Log LevelDebug ("Creating command " +:+ nameAlias c) NoData]) r.
Proof.
  unfold constructor, commandDescriptorSchema_safeParse. intros H.
  destruct d as [raw|]; [|discriminate]. exists raw. split; [reflexivity|].
  destruct (Raw.command raw) as [cmd|]; [|discriminate].
  destruct (String.eqb cmd ""); [discriminate|].
  destruct (runCommandArgsSchema_safeParse s); [|destruct s; discriminate].
  injection H as <- <-. simpl. repeat split. apply orElse_not_empty.
Qed.

Lemma constructor_defaults_witness :
  exists raw,
    Some {| Raw.command := Some "ls"; Raw.parameters := None;
            Raw.description := None; Raw.nameAlias := Some "" |} = Some raw /\
    Raw.command raw = Some "ls" /\
    @nil CommandParameter = default [] (Raw.parameters raw) /\
    "" = orElse (Raw.description raw) "" /\
    "id-1" = orElse (Raw.nameAlias raw) "id-1" /\
    ("id-1" <> "" -> "id-1" <> "") /\
    userInfo Sample.host = userInfo Sample.host /\
    set_logs [Log LevelDebug "Creating command id-1" NoData] Sample.host
    = set_logs (logs Sample.host ++ [Log LevelDebug ("Creating command " +:+ "id-1") NoData])
        Sample.host.
Proof.
  exact (constructor_defaults "id-1"
           (Some {| Raw.command := Some "ls"; Raw.parameters := None;
                    Raw.description := None; Raw.nameAlias := Some "" |})
           (Some Sample.channels) Sample.host
           (set_logs [Log LevelDebug "Creating command id-1" NoData] Sample.host)
           {| commandDescriptor :=
                {| Descriptor.command := "ls"; Descriptor.parameters := None;
                   Descriptor.description := None; Descriptor.nameAlias := Some "" |};
              command := "ls"; parameters := []; description := ""; nameAlias := "id-1";
              pid := None; status := NOT_STARTED; runAs := userInfo Sample.host;
              exitCode := None; history := []; childProcess := None; startDate := None;
              streams := {| Streams.readInput := 0%nat; Streams.writeOutput := 1%nat;
                            Streams.writeError := 2%nat |} |}
           eq_refl).
Defined.

(** X4: the descriptor is checked first: one the schema refuses is
    answered by the [ValidationError] about the descriptor whatever the
    channels are, also when they are missing altogether; a bundle of
    channels that is an object the schema refuses, by the one about the
    channels.  Each logs one error line.  An object only comes back when
    both schemas accept, and a construction that throws leaves the
    processes, the listeners of the input channel and the clock of the
    runtime as they were. *)
Theorem constructor_refusals (idGenerator : string) (d : option Raw.Descriptor)
    (s : option Raw.Streams) (r : Runtime) :
  (commandDescriptorSchema_safeParse d = None ->
   constructor idGenerator d s r
   = (set_logs (logs r ++ [Log LevelError
                             "Cound not create command instance: command descriptor not provided"
                             (DataJson d)]) r,
      inl (ValidationError "Could not create command instance: command descriptor not provided"
             (DataJson d)))) /\
  (forall raw, is_Some (commandDescriptorSchema_safeParse d) ->
     s = Some raw -> runCommandArgsSchema_safeParse s = None ->
     constructor idGenerator d s r
     = (set_logs (logs r ++ [Log LevelError
                               "Could not create command instance: IO streams not provided"
                               (DataText "[object Object]")]) r,
        inl (ValidationError "Could not create command instance: IO streams not provided"
               (DataText "[object Object]")))) /\
  (forall r' c, constructor idGenerator d s r = (r', inr c) ->
     is_Some (commandDescriptorSchema_safeParse d) /\
     is_Some (runCommandArgsSchema_safeParse s)) /\
  (forall r' e, constructor idGenerator d s r = (r', inl e) ->
     children r' = children r /\ inputListeners r' = inputListeners r /\ clock r' = clock r).
Proof.
  unfold constructor. split; [|split; [|split]].
  - intros ->. reflexivity.
  - intros raw [d' ->] -> ->. reflexivity.
  - intros r' c H.
    destruct (commandDescriptorSchema_safeParse d); [|discriminate].
    destruct (runCommandArgsSchema_safeParse s); [|destruct s; discriminate].
    split; eexists; reflexivity.
  - intros r' e H.
    destruct (commandDescriptorSchema_safeParse d).
    + destruct (runCommandArgsSchema_safeParse s); [discriminate|].
      destruct s; injection H as <- <-; repeat split.
    + injection H as <- <-. repeat split.
Qed.

Lemma constructor_refusals_witness :
  constructor "id-1" (Some Sample.noCommand) None Sample.host
  = (set_logs [Log LevelError
                 "Cound not create command instance: command descriptor not provided"
                 (DataJson (Some Sample.noCommand))] Sample.host,
     inl (ValidationError "Could not create command instance: command descriptor not provided"
            (DataJson (Some Sample.noCommand)))) /\
  constructor "id-1" (Some Sample.descriptor)
    (Some {| Raw.readInput := Some 0%nat; Raw.writeOutput := None; Raw.writeError := None |})
    Sample.host
  = (set_logs [Log LevelError "Could not create command instance: IO streams not provided"
                 (DataText "[object Object]")] Sample.host,
     inl (ValidationError "Could not create command instance: IO streams not provided"
            (DataText "[object Object]"))) /\
  (is_Some (commandDescriptorSchema_safeParse (Some Sample.descriptor)) /\
   is_Some (runCommandArgsSchema_safeParse (Some Sample.channels))) /\
  children Sample.host = children Sample.host.
Proof.
  split; [|split; [|split]].
  - destruct (constructor_refusals "id-1" (Some Sample.noCommand) None Sample.host)
      as (H & _).
    apply H. reflexivity.
  - destruct (constructor_refusals "id-1" (Some Sample.descriptor)
                (Some {| Raw.readInput := Some 0%nat; Raw.writeOutput := None;
                         Raw.writeError := None |}) Sample.host) as (_ & H & _).
    eapply H; [eexists; reflexivity | reflexivity | reflexivity].
  - destruct (constructor_refusals "id-1" (Some Sample.descriptor) (Some Sample.channels)
                Sample.host) as (_ & _ & H & _).
    apply (H Sample.host0 Sample.command0). reflexivity.
  - destruct (constructor_refusals "id-1" (Some Sample.descriptor) None Sample.host)
      as (_ & _ & _ & H).
    apply (H Sample.host
             (TypeError "Cannot read properties of undefined (reading 'toString')")).
    reflexivity.
Defined.

End ConstructionMore.

(** ** More on the process objects *)

Section StepRelated.

Variable R : ChildProcess -> ChildProcess -> Prop.
Hypothesis R_refl : forall p, R p p.
Hypothesis R_trans : forall p q r, R p q -> R q r -> R p r.
Hypothesis R_stdin : forall p v, R p (set_stdinWritten v p).
Hypothesis R_signals : forall p v, R p (set_signals v p).
Hypothesis R_listeners : forall p v, R p (set_listeners v p).

Lemma removeAllEventListeners_related event w :
  Forall2 R (children (runtime w)) (children (runtime (removeAllEventListeners event w))).
Proof.
  assert (Hrm : forall ev p, R p (removeAllListeners ev p))
    by (intros; apply R_listeners).
  unfold removeAllEventListeners.
  destruct (childProcess (this w)); [|apply related_refl, R_refl].
  destruct event as [ev|]; [destruct (String.eqb ev "")|];
    try (apply removeAll_fold_related; assumption).
  apply onChild_related; auto.
Qed.

(** Short of a [run()] that spawns, every process object of the runtime
    is still there, in its place, changed at most as [R] allows. *)
Lemma step_related a w :
  isSpawn a = false ->
  Forall2 R (children (runtime w)) (children (runtime (fst (step a w)))).
Proof.
  intros Ha.
  assert (Hrefl : Forall2 R (children (runtime w)) (children (runtime w)))
    by apply related_refl, R_refl.
  destruct a as [ms|r| | |ps|event listener|event|child e|child chunk|child chunk|chunk|child stream err];
    simpl.
  - exact Hrefl.
  - destruct r as [err|pid']; [exact Hrefl | discriminate].
  - unfold stop. apply (onChild_related R R_refl R_trans _ (logger_debug _ w)).
    intros p. apply R_signals.
  - unfold kill. apply (onChild_related R R_refl R_trans _ (logger_debug _ w)).
    intros p. apply R_signals.
  - exact Hrefl.
  - unfold onEvent. apply onChild_related; auto.
  - apply removeAllEventListeners_related.
  - unfold deliver. destruct (children (runtime w) !! child) as [p|]; [|exact Hrefl].
    destruct e as [code signal|err]; simpl; [apply emit_related; assumption|].
    destruct (listenersOf "error" (listeners p)) as [|l ls]; [exact Hrefl|].
    apply (emit_related R R_refl R_trans R_stdin (l :: ls)).
  - unfold deliverStdout. destruct (children (runtime w) !! child) as [p|]; [|exact Hrefl].
    apply emit_related; assumption.
  - unfold deliverStderr. destruct (children (runtime w) !! child) as [p|]; [|exact Hrefl].
    apply emit_related; assumption.
  - unfold deliverInput. apply emit_related; assumption.
  - rewrite deliverStreamError_world. exact Hrefl.
Qed.

End StepRelated.

Section RunFacts.

(** What a [run()] that spawns changes of the object. *)
Lemma run_this pid' w :
  this (fst (run (SpawnReturns pid') w))
  = set_status RUNNING
      (set_pid pid'
         (set_childProcess (Some (length (children (runtime w))))
            (set_startDate (Some (clock (runtime w))) (this w)))).
Proof.
  unfold run, registerIoEvent, eventsListener. simpl. reflexivity.
Qed.

(** The process it adds to the runtime. *)
Lemma run_process pid' w :
  children (runtime (fst (run (SpawnReturns pid') w)))
  = (children (runtime w)
     ++ [ {| spawnfile := command (this w);
             spawnargs := resolveCommandParameters (parameters (this w));
             spawncwd := cwd (runtime w);
             spawnuid := uid (runAs (this w));
             spawngid := gid (runAs (this w));
             childPid := pid';
             listeners := [("exit", ExitObserver); ("error", ErrorObserver)];
             stdoutListeners := [StdoutRecorder];
             stderrListeners := [StderrRecorder];
             stdinWritten := [];
             signals := [] |} ])%list.
Proof.
  unfold run, registerIoEvent, eventsListener. simpl. rewrite !alter_last. reflexivity.
Qed.

End RunFacts.

(** ** More on the life cycle *)

Section LifecycleMore.

(** Where there is no process and nobody listens to the input channel,
    an action other than a [run()] that spawns changes the object at most
    in its parameters and its start date. *)
Lemma step_idle a w :
  isSpawn a = false ->
  children (runtime w) = [] -> inputListeners (runtime w) = [] ->
  childProcess (this w) = None ->
  children (runtime (fst (step a w))) = [] /\
  inputListeners (runtime (fst (step a w))) = [] /\
  exists ps started,
    this (fst (step a w)) = set_startDate started (set_parameters ps (this w)).
Proof.
  intros Ha Hch Hin Hcp.
  assert (Hsame : children (runtime w) = [] /\ inputListeners (runtime w) = [] /\
                  exists ps started,
                    this w = set_startDate started (set_parameters ps (this w))).
  { split; [exact Hch|]. split; [exact Hin|].
    exists (parameters (this w)), (startDate (this w)). destruct w as [? []]; reflexivity. }
  destruct a as [ms|r| | |ps|event listener|event|child e|child chunk|child chunk|chunk|child stream err];
    simpl.
  - exact Hsame.
  - destruct r as [err|pid']; [|discriminate]. simpl.
    split; [exact Hch|]. split; [exact Hin|].
    exists (parameters (this w)), (Some (clock (runtime w))).
    destruct w as [? []]; reflexivity.
  - unfold stop. rewrite onChild_without_process by exact Hcp. exact Hsame.
  - unfold kill. rewrite onChild_without_process by exact Hcp. exact Hsame.
  - split; [exact Hch|]. split; [exact Hin|].
    exists ps, (startDate (this w)). destruct w as [? []]; reflexivity.
  - unfold onEvent. rewrite onChild_without_process by exact Hcp. exact Hsame.
  - unfold removeAllEventListeners. rewrite Hcp. exact Hsame.
  - unfold deliver. rewrite Hch. exact Hsame.
  - unfold deliverStdout. rewrite Hch. exact Hsame.
  - unfold deliverStderr. rewrite Hch. exact Hsame.
  - unfold deliverInput. rewrite Hin. exact Hsame.
  - rewrite deliverStreamError_world. exact Hsame.
Qed.

(** X5: an object constructed in a pristine runtime never leaves
    [NOT_STARTED] unless a [run()] spawns a process: whatever else is
    called or delivered, [isRunning()] is false, there is no pid, no exit
    code and no process, and the history is empty; input arriving on the
    channel before the process exists is not recorded. *)
Theorem not_started_without_spawn (idGenerator : string) (d : option Raw.Descriptor)
    (s : option Raw.Streams) (r r' : Runtime) (c : Command) (script : list Action) :
  constructor idGenerator d s r = (r', inr c) ->
  pristine r ->
  noSpawn script = true ->
  let w := after script (world r' c) in
  getStatus w = NOT_STARTED /\ isRunning w = false /\
  getPid w = None /\ getExitCode w = None /\ getHistoryDump w = [] /\
  childProcess (this w) = None /\ children (runtime w) = [].
Proof.
  intros Hc [Hch Hin] Hs.
  apply constructor_fresh in Hc.
  destruct Hc as (Hst & Hcp & Hpid & Hcode & Hhist & _ & Hch' & Hin' & _).
  rewrite Hch in Hch'. rewrite Hin in Hin'.
  assert (H : forall w,
             children (runtime w) = [] -> inputListeners (runtime w) = [] ->
             childProcess (this w) = None ->
             children (runtime (after script w)) = [] /\
             childProcess (this (after script w)) = None /\
             status (this (after script w)) = status (this w) /\
             pid (this (after script w)) = pid (this w) /\
             exitCode (this (after script w)) = exitCode (this w) /\
             history (this (after script w)) = history (this w)).
  { clear - Hs. induction script as [|a script IH]; intros w H1 H2 H3; [auto 10|].
    simpl in Hs. apply andb_prop in Hs as [Ha Hs]. apply negb_true_iff in Ha.
    rewrite after_cons.
    destruct (step_idle a w Ha H1 H2 H3) as (H1' & H2' & ps & started & Hthis).
    assert (H3' : childProcess (this (fst (step a w))) = None)
      by (rewrite Hthis; exact H3).
    destruct (IH Hs _ H1' H2' H3') as (-> & -> & -> & -> & -> & ->).
    rewrite Hthis. auto 10. }
  destruct (H (world r' c) Hch' Hin' Hcp) as (H1 & H2 & H3 & H4 & H5 & H6).
  simpl. unfold getStatus, isRunning, getPid, getExitCode, getHistoryDump.
  rewrite H3, H4, H5, H6. simpl. rewrite Hst. auto 10.
Qed.

Lemma not_started_without_spawn_witness :
  let w := after [InputData "early"; Stop; Run (SpawnThrows (SystemError "spawn EACCES"));
                  ProcessEmits 0 (Exit (Some 1) None); Tick 5; StdoutData 0 "lost"]
             (world Sample.host0 Sample.command0) in
  getStatus w = NOT_STARTED /\ isRunning w = false /\
  getPid w = None /\ getExitCode w = None /\ getHistoryDump w = [] /\
  childProcess (this w) = None /\ children (runtime w) = [].
Proof.
  apply (not_started_without_spawn "generated-id" (Some Sample.descriptor)
           (Some Sample.channels) Sample.host Sample.host0 Sample.command0
           [InputData "early"; Stop; Run (SpawnThrows (SystemError "spawn EACCES"));
            ProcessEmits 0 (Exit (Some 1) None); Tick 5; StdoutData 0 "lost"]).
  - reflexivity.
  - split; reflexivity.
  - reflexivity.
Defined.

(** X6: as long as no [run()] has spawned a process, [onEvent] and
    [removeAllEventListeners] do nothing at all: the world after the call
    is the world before it, so a listener handed over before [run()] is
    registered nowhere. *)
Theorem listeners_before_spawn_are_dropped (idGenerator : string)
    (d : option Raw.Descriptor) (s : option Raw.Streams) (r r' : Runtime) (c : Command)
    (script : list Action) (event : string) (listener : nat) (name : option string) :
  constructor idGenerator d s r = (r', inr c) ->
  noSpawn script = true ->
  let w := after script (world r' c) in
  step (OnEvent event listener) w = (w, None) /\
  step (RemoveAllEventListeners name) w = (w, None).
Proof.
  intros Hc Hs w.
  assert (Hnone : childProcess (this w) = None).
  { unfold w. rewrite after_childProcess by exact Hs.
    apply constructor_fresh in Hc. apply Hc. }
  simpl. unfold onEvent, removeAllEventListeners.
  rewrite onChild_without_process by exact Hnone. rewrite Hnone. split; reflexivity.
Qed.

Lemma listeners_before_spawn_are_dropped_witness :
  let w := after [SetParameters [Literal "-l"]; Tick 2]
             (world Sample.host0 Sample.command0) in
  step (OnEvent "exit" 7) w = (w, None) /\
  step (RemoveAllEventListeners (Some "exit")) w = (w, None).
Proof.
  apply (listeners_before_spawn_are_dropped "generated-id" (Some Sample.descriptor)
           (Some Sample.channels) Sample.host Sample.host0 Sample.command0
           [SetParameters [Literal "-l"]; Tick 2] "exit" 7%nat (Some "exit")).
  - reflexivity.
  - reflexivity.
Defined.

End LifecycleMore.

(** ** More on the exit observer *)

Section ObserversMore.





Lemma after_status script w :
  noSpawn script = true -> noProcessEvent script = true ->
  status (this (after script w)) = status (this w).
Proof.
  revert w. induction script as [|a script IH]; intros w Hs Hp; [reflexivity|].
  simpl in Hs, Hp. apply andb_prop in Hs as [Ha Hs]. apply andb_prop in Hp as [Ha' Hp].
  apply negb_true_iff in Ha, Ha'.
  rewrite after_cons, IH by assumption. apply step_status; assumption.
Qed.

(** X8: from a [run()] that spawns until the next event of a process,
    [isRunning()] is true whatever is called or arrives in between:
    [stop()] and [kill()] only ask for the end of the process, they do not
    end the run themselves, and data, time, new parameters, new listeners
    or a further [run()] whose [spawn] throws change nothing either. *)
Theorem isRunning_until_process_event (w : World) (pid' : option Z) (script : list Action) :
  noSpawn script = true ->
  noProcessEvent script = true ->
  isRunning (after (Run (SpawnReturns pid') :: script) w) = true /\
  getStatus (after (Run (SpawnReturns pid') :: script) w) = RUNNING.
Proof.
  intros Hs Hp. rewrite after_cons. unfold isRunning, getStatus.
  rewrite after_status by assumption.
  change (step (Run (SpawnReturns pid')) w) with (run (SpawnReturns pid') w).
  rewrite run_this. split; reflexivity.
Qed.

Lemma isRunning_until_process_event_witness :
  isRunning (after (Run (SpawnReturns None)
                    :: [Stop; Kill; InputData "q"; Tick 100;
                        Run (SpawnThrows (SystemError "spawn EAGAIN"))])
               Sample.created) = true /\
  getStatus (after (Run (SpawnReturns None)
                    :: [Stop; Kill; InputData "q"; Tick 100;
                        Run (SpawnThrows (SystemError "spawn EAGAIN"))])
               Sample.created) = RUNNING.
Proof.
  apply (isRunning_until_process_event Sample.created None
           [Stop; Kill; InputData "q"; Tick 100;
            Run (SpawnThrows (SystemError "spawn EAGAIN"))]);
    reflexivity.
Defined.

End ObserversMore.

(** ** Listeners of the caller, and their removal *)

Section Removal.

Lemma listenersOf_removed event table :
  listenersOf event
    (List.filter (fun nl => negb (String.eqb (fst nl) event)) table) = [].
Proof.
  induction table as [|[n l] table IH]; simpl; [reflexivity|].
  destruct (String.eqb n event) eqn:E; simpl; [exact IH|]. rewrite E. exact IH.
Qed.

Lemma listenersOf_kept event other table :
  other <> event ->
  listenersOf other
    (List.filter (fun nl => negb (String.eqb (fst nl) event)) table)
  = listenersOf other table.
Proof.
  intros Hne. induction table as [|[n l] table IH]; simpl; [reflexivity|].
  destruct (String.eqb_spec n event) as [->|Hn]; simpl.
  - destruct (String.eqb_spec event other); [congruence | exact IH].
  - rewrite IH. reflexivity.
Qed.

Lemma In_dedup (x : string) names : In x names -> In x (dedup names).
Proof.
  induction names as [|n names IH]; intros H; simpl; [destruct H|].
  destruct (String.eqb_spec x n) as [->|Hne]; [left; reflexivity|].
  right. apply filter_In. destruct H as [->|H]; [congruence|].
  split; [apply IH; exact H|]. apply negb_true_iff, String.eqb_neq. exact Hne.
Qed.

(** Removing the listeners of one event after the other leaves those of
    none of them. *)
Lemma removeAll_fold_process events p :
  fold_left (fun p ev => removeAllListeners ev p) events p
  = set_listeners
      (List.filter (fun nl => forallb (fun ev => negb (String.eqb (fst nl) ev)) events)
         (listeners p)) p.
Proof.
  revert p. induction events as [|ev events IH]; intros p; simpl.
  - assert (H : forall (t : list (string * Listener)), List.filter (fun _ => true) t = t).
    { induction t as [|x t IHt]; simpl; congruence. }
    rewrite H. destruct p; reflexivity.
  - rewrite IH. unfold removeAllListeners. simpl.
    match goal with
    | |- set_listeners ?t (set_listeners ?u p) = _ =>
        transitivity (set_listeners t p); [reflexivity|]
    end.
    f_equal.
    induction (listeners p) as [|[n l] t IHt]; simpl; [reflexivity|].
    destruct (String.eqb n ev); simpl; [exact IHt|].
    destruct (forallb _ events); [f_equal|]; exact IHt.
Qed.

Lemma removeAll_eventNames p :
  fold_left (fun p ev => removeAllListeners ev p) (eventNames p) p = set_listeners [] p.
Proof.
  rewrite removeAll_fold_process. f_equal.
  assert (H : forall t names,
             (forall nl, In nl t -> In (fst nl) names) ->
             List.filter (fun nl : string * Listener =>
                            forallb (fun ev => negb (String.eqb (fst nl) ev)) names) t = []).
  { induction t as [|nl t IHt]; intros names Hin; simpl; [reflexivity|].
    replace (forallb (fun ev => negb (String.eqb (fst nl) ev)) names) with false.
    - apply IHt. intros x Hx. apply Hin. right. exact Hx.
    - symmetry. apply not_true_is_false. intros Hall.
      rewrite forallb_forall in Hall. specialize (Hall (fst nl) (Hin nl (or_introl eq_refl))).
      rewrite String.eqb_refl in Hall. discriminate. }
  apply H. intros nl Hnl. unfold eventNames. apply In_dedup, in_map. exact Hnl.
Qed.

Lemma removeAll_fold_children events w i :
  childProcess (this w) = Some i ->
  children (runtime (fold_left (fun w ev => onChild (removeAllListeners ev) w) events w))
  = alter (fun p => fold_left (fun p ev => removeAllListeners ev p) events p) i
      (children (runtime w)).
Proof.
  revert w. induction events as [|ev events IH]; intros w Hcp; simpl.
  - symmetry. apply list_alter_id. reflexivity.
  - rewrite IH by (rewrite onChild_this; exact Hcp).
    rewrite onChild_children, Hcp, list_alter_alter_eq. reflexivity.
Qed.

Lemma removeAll_without_name w i event :
  childProcess (this w) = Some i ->
  event = None \/ event = Some "" ->
  children (runtime (removeAllEventListeners event w))
  = alter (set_listeners []) i (children (runtime w)).
Proof.
  intros Hcp Hev.
  assert (H : children (runtime (fold_left (fun w ev => onChild (removeAllListeners ev) w)
                                   (from_option eventNames [] (children (runtime w) !! i)) w))
              = alter (set_listeners []) i (children (runtime w))).
  { rewrite (removeAll_fold_children _ w i Hcp).
    apply list_alter_ext; [|reflexivity]. intros p Hp. rewrite Hp. simpl.
    apply removeAll_eventNames. }
  unfold removeAllEventListeners. rewrite Hcp.
  destruct Hev as [-> | ->]; simpl; exact H.
Qed.

(** X9: [removeAllEventListeners()] without an event name, or with the
    empty name, leaves the process the object refers to without any
    listener, the exit and error observers of the class included; nothing
    else of that process, no other process, nothing of the object and
    nothing else of the runtime changes. *)
Theorem removeAllEventListeners_clears_process (w : World) (i : nat) (event : option string) :
  childProcess (this w) = Some i ->
  event = None \/ event = Some "" ->
  this (removeAllEventListeners event w) = this w /\
  children (runtime (removeAllEventListeners event w))
  = alter (set_listeners []) i (children (runtime w)) /\
  set_children [] (runtime (removeAllEventListeners event w)) = set_children [] (runtime w).
Proof.
  intros Hcp Hev.
  split; [apply removeAllEventListeners_this|].
  split; [apply removeAll_without_name; assumption | apply removeAllEventListeners_runtime].
Qed.

Lemma removeAllEventListeners_clears_process_witness :
  this (removeAllEventListeners None (onEvent "close" 3 Sample.running))
  = this (onEvent "close" 3 Sample.running) /\
  children (runtime (removeAllEventListeners None (onEvent "close" 3 Sample.running)))
  = alter (set_listeners []) 0%nat (children (runtime (onEvent "close" 3 Sample.running))) /\
  set_children [] (runtime (removeAllEventListeners None (onEvent "close" 3 Sample.running)))
  = set_children [] (runtime (onEvent "close" 3 Sample.running)).
Proof.
  apply (removeAllEventListeners_clears_process (onEvent "close" 3 Sample.running) 0%nat None).
  - reflexivity.
  - left. reflexivity.
Defined.

(** X10: [removeAllEventListeners(event)] with a name removes from the
    process the object refers to the listeners of that event, all of them
    and only them: those of every other event stay, in their order, and
    no other process is touched. *)
Theorem removeAllEventListeners_named (w : World) (i : nat) (event : string) :
  childProcess (this w) = Some i ->
  event <> "" ->
  this (removeAllEventListeners (Some event) w) = this w /\
  forall j p,
    children (runtime w) !! j = Some p ->
    exists p',
      children (runtime (removeAllEventListeners (Some event) w)) !! j = Some p' /\
      (j <> i -> p' = p) /\
      (j = i ->
       listenersOf event (listeners p') = [] /\
       (forall other, other <> event ->
          listenersOf other (listeners p') = listenersOf other (listeners p)) /\
       set_listeners [] p' = set_listeners [] p).
Proof.
  intros Hcp Hne.
  split; [apply removeAllEventListeners_this|].
  intros j p Hp. unfold removeAllEventListeners. rewrite Hcp.
  destruct (String.eqb_spec event ""); [congruence|].
  rewrite onChild_children, Hcp.
  destruct (decide (j = i)) as [->|Hji].
  - exists (removeAllListeners event p).
    rewrite list_lookup_alter_eq, Hp. split; [reflexivity|]. split; [congruence|].
    intros _. unfold removeAllListeners. simpl.
    split; [apply listenersOf_removed|]. split; [|reflexivity].
    intros other Ho. apply listenersOf_kept. exact Ho.
  - exists p. rewrite list_lookup_alter_ne by congruence.
    split; [exact Hp|]. split; [reflexivity | congruence].
Qed.

Lemma removeAllEventListeners_named_witness :
  this (removeAllEventListeners (Some "exit") Sample.running) = this Sample.running /\
  forall j p,
    children (runtime Sample.running) !! j = Some p ->
    exists p',
      children (runtime (removeAllEventListeners (Some "exit") Sample.running)) !! j = Some p' /\
      (j <> 0%nat -> p' = p) /\
      (j = 0%nat ->
       listenersOf "exit" (listeners p') = [] /\
       (forall other, other <> "exit" ->
          listenersOf other (listeners p') = listenersOf other (listeners p)) /\
       set_listeners [] p' = set_listeners [] p).
Proof.
  apply (removeAllEventListeners_named Sample.running 0%nat "exit").
  - reflexivity.
  - discriminate.
Defined.

(** X11: once [removeAllEventListeners()] has been called without a
    name, the object no longer follows its process: an exit event leaves
    the world, and so the status, as it is, and an error event, which
    nobody handles any more, is thrown by the emitter. *)
Theorem events_after_removal (w : World) (i : nat) (p : ChildProcess)
    (code : option Z) (signal : option string) (err : JsError) :
  childProcess (this w) = Some i ->
  children (runtime w) !! i = Some p ->
  let w' := removeAllEventListeners None w in
  deliver i (Exit code signal) w' = (w', None) /\
  deliver i (Failure err) w' = (w', Some err) /\
  getStatus w' = getStatus w.
Proof.
  intros Hcp Hp w'.
  assert (Hp' : children (runtime w') !! i = Some (set_listeners [] p)).
  { unfold w'. rewrite (removeAll_without_name w i None Hcp) by auto.
    rewrite list_lookup_alter_eq, Hp. reflexivity. }
  unfold deliver, getStatus. rewrite Hp'. simpl.
  split; [reflexivity|]. split; [reflexivity|].
  unfold w'. rewrite removeAllEventListeners_this. reflexivity.
Qed.

Lemma events_after_removal_witness :
  let w' := removeAllEventListeners None Sample.running in
  deliver 0 (Exit (Some 0) None) w' = (w', None) /\
  deliver 0 (Failure (SystemError "write EPIPE")) w' = (w', Some (SystemError "write EPIPE")) /\
  getStatus w' = getStatus Sample.running.
Proof.
  apply (events_after_removal Sample.running 0%nat
           (default (newChild "" [] "" (userInfo Sample.host) None)
              (children (runtime Sample.running) !! 0%nat))
           (Some 0) None (SystemError "write EPIPE")).
  - reflexivity.
  - reflexivity.
Defined.

End Removal.

(** ** Calls that reach the process *)

Section WithProcess.

(** X12: with a process, [onEvent(event, listener)] adds the listener
    to the process the object refers to, after the listeners the event
    already has there (so the observers of the class, registered at
    [run()], are called before it); the listeners of other events, the
    other processes and the object stay as they are. *)
Theorem onEvent_registers_last (w : World) (i : nat) (event : string) (listener : nat) :
  childProcess (this w) = Some i ->
  this (onEvent event listener w) = this w /\
  forall j p,
    children (runtime w) !! j = Some p ->
    exists p',
      children (runtime (onEvent event listener w)) !! j = Some p' /\
      (j <> i -> p' = p) /\
      (j = i ->
       listenersOf event (listeners p')
       = (listenersOf event (listeners p) ++ [UserListener listener])%list /\
       (forall other, other <> event ->
          listenersOf other (listeners p') = listenersOf other (listeners p)) /\
       set_listeners [] p' = set_listeners [] p).
Proof.
  intros Hcp. unfold onEvent. split; [apply onChild_this|].
  intros j p Hp. rewrite onChild_children, Hcp.
  destruct (decide (j = i)) as [->|Hji].
  - eexists. rewrite list_lookup_alter_eq, Hp. split; [reflexivity|].
    split; [congruence|]. intros _. simpl. rewrite !listenersOf_app. simpl.
    rewrite String.eqb_refl. split; [reflexivity|]. split; [|reflexivity].
    intros other Ho. rewrite listenersOf_app. simpl.
    destruct (String.eqb_spec event other); [congruence|]. apply app_nil_r.
  - exists p. rewrite list_lookup_alter_ne by congruence.
    split; [exact Hp|]. split; [reflexivity | congruence].
Qed.

Lemma onEvent_registers_last_witness :
  this (onEvent "exit" 9 Sample.running) = this Sample.running /\
  forall j p,
    children (runtime Sample.running) !! j = Some p ->
    exists p',
      children (runtime (onEvent "exit" 9 Sample.running)) !! j = Some p' /\
      (j <> 0%nat -> p' = p) /\
      (j = 0%nat ->
       listenersOf "exit" (listeners p')
       = (listenersOf "exit" (listeners p) ++ [UserListener 9])%list /\
       (forall other, other <> "exit" ->
          listenersOf other (listeners p') = listenersOf other (listeners p)) /\
       set_listeners [] p' = set_listeners [] p).
Proof.
  apply (onEvent_registers_last Sample.running 0%nat "exit" 9%nat). reflexivity.
Defined.

(** X13: with a process, [stop()] asks for [SIGTERM] and [kill()] for
    [SIGKILL], once, of the process the object refers to and of no other
    (a process of an earlier [run()] is never signalled); the object
    itself, its status included, is not changed by the call. *)
Theorem stop_kill_signal_current_process (w : World) (i : nat) :
  childProcess (this w) = Some i ->
  this (stop w) = this w /\ this (kill w) = this w /\
  forall j p,
    children (runtime w) !! j = Some p ->
    children (runtime (stop w)) !! j
    = Some (if decide (j = i) then set_signals (signals p ++ ["SIGTERM"]) p else p) /\
    children (runtime (kill w)) !! j
    = Some (if decide (j = i) then set_signals (signals p ++ ["SIGKILL"]) p else p).
Proof.
  intros Hcp. unfold stop, kill. rewrite !onChild_this.
  split; [reflexivity|]. split; [reflexivity|].
  intros j p Hp. rewrite !onChild_children. simpl. rewrite Hcp.
  destruct (decide (j = i)) as [->|Hji].
  - rewrite !list_lookup_alter_eq, Hp. split; reflexivity.
  - rewrite !list_lookup_alter_ne by congruence. split; exact Hp.
Qed.

Lemma stop_kill_signal_current_process_witness :
  this (stop Sample.running) = this Sample.running /\
  this (kill Sample.running) = this Sample.running /\
  forall j p,
    children (runtime Sample.running) !! j = Some p ->
    children (runtime (stop Sample.running)) !! j
    = Some (if decide (j = 0%nat) then set_signals (signals p ++ ["SIGTERM"]) p else p) /\
    children (runtime (kill Sample.running)) !! j
    = Some (if decide (j = 0%nat) then set_signals (signals p ++ ["SIGKILL"]) p else p).
Proof.
  apply (stop_kill_signal_current_process Sample.running 0%nat). reflexivity.
Defined.

(** X14: [run()] spawns the command of the object with the parameters
    it holds at that moment, resolved, in the working directory of the
    host process and as the user the object runs as; parameters set just
    before [run()] are the ones used, and the pid of the object becomes the
    one of the new process, which the object now refers to.  Parameters
    set afterwards change no process. *)
Theorem run_spawns_with_current_parameters (w : World) (ps later : list CommandParameter)
    (pid' : option Z) :
  let w' := fst (run (SpawnReturns pid') (setParameters ps w)) in
  exists p,
    children (runtime w') = (children (runtime w) ++ [p])%list /\
    childProcess (this w') = Some (length (children (runtime w))) /\
    spawnfile p = command (this w) /\
    spawnargs p = resolveCommandParameters ps /\
    spawncwd p = cwd (runtime w) /\
    spawnuid p = uid (runAs (this w)) /\ spawngid p = gid (runAs (this w)) /\
    childPid p = pid' /\ getPid w' = pid' /\
    signals p = [] /\ stdinWritten p = [] /\
    children (runtime (setParameters later w')) = children (runtime w').
Proof.
  intros w'. unfold w', getPid. rewrite run_process, run_this.
  eexists. split; [reflexivity|]. simpl. repeat split.
  exact (run_process pid' (setParameters ps w)).
Qed.

Lemma run_spawns_with_current_parameters_example :
  spawnargs <$> children (runtime (fst (run (SpawnReturns (Some 7))
                                          (setParameters [Literal "-l"; Input "--dir=$" (Some "/tmp")]
                                             Sample.created))))
  = [[JsString "-l"; JsString "--dir=/tmp"]].
Proof. reflexivity. Qed.

Lemma step_startDate a w :
  isRun a = false -> startDate (this (fst (step a w))) = startDate (this w).
Proof.
  intros Ha.
  assert (Hemit : forall ls e, startDate (this (emit ls e w)) = startDate (this w)).
  { intros ls e. destruct (emit_this ls e w) as (st & code & more & -> & _). reflexivity. }
  destruct a as [ms|r| | |ps|event listener|event|child e|child chunk|child chunk|chunk|child stream err];
    try discriminate; simpl; try reflexivity.
  - unfold stop. rewrite onChild_this. reflexivity.
  - unfold kill. rewrite onChild_this. reflexivity.
  - unfold onEvent. rewrite onChild_this. reflexivity.
  - rewrite removeAllEventListeners_this. reflexivity.
  - unfold deliver. destruct (children (runtime w) !! child) as [p|]; [|reflexivity].
    destruct e as [code signal|err]; simpl; [apply Hemit|].
    destruct (listenersOf "error" (listeners p)) as [|l ls]; [reflexivity|].
    apply (Hemit (l :: ls)).
  - unfold deliverStdout. destruct (children (runtime w) !! child); [apply Hemit|reflexivity].
  - unfold deliverStderr. destruct (children (runtime w) !! child); [apply Hemit|reflexivity].
  - apply Hemit.
  - rewrite deliverStreamError_world. reflexivity.
Qed.

Lemma after_startDate script w :
  noRun script = true -> startDate (this (after script w)) = startDate (this w).
Proof.
  revert w. induction script as [|a script IH]; intros w Hs; [reflexivity|].
  simpl in Hs. apply andb_prop in Hs as [Ha Hs]. apply negb_true_iff in Ha.
  rewrite after_cons, IH by exact Hs. apply step_startDate. exact Ha.
Qed.

(** X15: the start date of an object is missing until [run()] is called
    and is from then on the time of the latest call of [run()], whether
    its [spawn] returned or threw; nothing else changes it. *)
Theorem startDate_is_latest_run (idGenerator : string) (d : option Raw.Descriptor)
    (s : option Raw.Streams) (r r' : Runtime) (c : Command) (script : list Action) :
  constructor idGenerator d s r = (r', inr c) ->
  (noRun script = true -> getStartDate (after script (world r' c)) = None) /\
  (forall before outcome since,
     script = (before ++ Run outcome :: since)%list -> noRun since = true ->
     getStartDate (after script (world r' c))
     = Some (clock (runtime (after before (world r' c))))).
Proof.
  intros Hc. unfold getStartDate. split.
  - intros Hs. rewrite after_startDate by exact Hs.
    apply constructor_fresh in Hc. apply Hc.
  - intros before outcome since -> Hs.
    rewrite after_app, after_cons, after_startDate by exact Hs.
    destruct outcome; reflexivity.
Qed.

Lemma startDate_is_latest_run_witness :
  getStartDate (after [Tick 5; Stop] (world Sample.host0 Sample.command0)) = None /\
  getStartDate (after [Tick 5; Run (SpawnThrows (SystemError "spawn EPERM")); Tick 7; Kill]
                  (world Sample.host0 Sample.command0))
  = Some (clock (runtime (after [Tick 5] (world Sample.host0 Sample.command0)))).
Proof.
  split.
  - destruct (startDate_is_latest_run "generated-id" (Some Sample.descriptor)
                (Some Sample.channels) Sample.host Sample.host0 Sample.command0
                [Tick 5; Stop] eq_refl) as [H _].
    apply H. reflexivity.
  - destruct (startDate_is_latest_run "generated-id" (Some Sample.descriptor)
                (Some Sample.channels) Sample.host Sample.host0 Sample.command0
                [Tick 5; Run (SpawnThrows (SystemError "spawn EPERM")); Tick 7; Kill]
                eq_refl) as [_ H].
    apply (H [Tick 5] (SpawnThrows (SystemError "spawn EPERM")) [Tick 7; Kill]);
      reflexivity.
Defined.

End WithProcess.

(** ** The object and its processes *)

Section Identity.

Lemma sameProcess_refl p : sameProcess p p.
Proof. repeat split. Qed.

Lemma sameProcess_trans p q r : sameProcess p q -> sameProcess q r -> sameProcess p r.
Proof.
  unfold sameProcess. intros (-> & -> & -> & -> & -> & ->) (-> & -> & -> & -> & -> & ->).
  repeat split.
Qed.

Lemma step_keeps_process a w j p :
  children (runtime w) !! j = Some p ->
  exists p', children (runtime (fst (step a w))) !! j = Some p' /\ sameProcess p p'.
Proof.
  intros Hp. destruct (isSpawn a) eqn:Ha.
  - destruct a as [|[|pid']| | | | | | | | | |]; try discriminate.
    change (step (Run (SpawnReturns pid')) w) with (run (SpawnReturns pid') w).
    rewrite run_process. exists p. split; [|apply sameProcess_refl].
    apply lookup_app_l_Some. exact Hp.
  - pose proof (step_related sameProcess sameProcess_refl sameProcess_trans
                  (fun p v => sameProcess_refl p) (fun p v => sameProcess_refl p)
                  (fun p v => sameProcess_refl p) a w Ha) as Hrel.
    destruct (Forall2_lookup_l _ _ _ _ _ Hrel Hp) as (p' & Hp' & Hsame).
    exists p'. split; assumption.
Qed.

(** X16: a process object, once spawned, stays in the runtime and
    keeps the file, the arguments, the directory, the user, the group and
    the pid it was spawned with, whatever is called or delivered later,
    further calls of [run()] and of [setParameters] included. *)
Theorem processes_keep_identity (script : list Action) (w : World) (j : nat)
    (p : ChildProcess) :
  children (runtime w) !! j = Some p ->
  exists p', children (runtime (after script w)) !! j = Some p' /\ sameProcess p p'.
Proof.
  revert w p. induction script as [|a script IH]; intros w p Hp.
  - exists p. split; [exact Hp | apply sameProcess_refl].
  - rewrite after_cons. destruct (step_keeps_process a w j p Hp) as (p1 & Hp1 & H1).
    destruct (IH _ _ Hp1) as (p' & Hp' & H').
    exists p'. split; [exact Hp' | eapply sameProcess_trans; eassumption].
Qed.

Lemma processes_keep_identity_witness :
  exists p',
    children (runtime (after [SetParameters [Literal "--changed"]; Stop; InputData "y";
                              Run (SpawnReturns (Some 4243));
                              RemoveAllEventListeners None]
                         Sample.running)) !! 0%nat = Some p' /\
    sameProcess (default (newChild "" [] "" (userInfo Sample.host) None)
                   (children (runtime Sample.running) !! 0%nat)) p'.
Proof.
  apply (processes_keep_identity
           [SetParameters [Literal "--changed"]; Stop; InputData "y";
            Run (SpawnReturns (Some 4243)); RemoveAllEventListeners None]
           Sample.running 0%nat).
  reflexivity.
Defined.

Lemma step_refersToItsProcess a w :
  refersToItsProcess w -> refersToItsProcess (fst (step a w)).
Proof.
  intros Hw. unfold refersToItsProcess in *. destruct (isSpawn a) eqn:Ha.
  - destruct a as [|[|pid']| | | | | | | | | |]; try discriminate.
    change (step (Run (SpawnReturns pid')) w) with (run (SpawnReturns pid') w).
    rewrite run_this, run_process. simpl.
    eexists. split; [apply list_lookup_middle; reflexivity|]. simpl. repeat split.
  - destruct (step_this a w Ha) as (st & code & more & ps & started & Hthis & _).
    rewrite Hthis. simpl.
    destruct (childProcess (this w)) as [i|]; [|exact Hw].
    destruct Hw as (p & Hp & Hpid & Hfile & Huid & Hgid).
    destruct (step_keeps_process a w i p Hp) as (p' & Hp' & Hf & _ & _ & Hu & Hg & Hpi).
    exists p'. split; [exact Hp'|]. repeat split; congruence.
Qed.

(** X17: at every moment of the life of an object, either it has no
    process and no pid, or it refers to a process that exists in the
    runtime, was spawned from the command of the object as the user the
    object runs as, and has the pid the object reports. *)
Theorem object_refers_to_its_process (idGenerator : string) (d : option Raw.Descriptor)
    (s : option Raw.Streams) (r r' : Runtime) (c : Command) (script : list Action) :
  constructor idGenerator d s r = (r', inr c) ->
  refersToItsProcess (after script (world r' c)).
Proof.
  intros Hc.
  assert (H0 : refersToItsProcess (world r' c)).
  { apply constructor_fresh in Hc. destruct Hc as (_ & Hcp & Hpid & _).
    unfold refersToItsProcess. simpl. rewrite Hcp. exact Hpid. }
  revert H0. generalize (world r' c). clear.
  induction script as [|a script IH]; intros w Hw; [exact Hw|].
  rewrite after_cons. apply IH. apply step_refersToItsProcess. exact Hw.
Qed.

Lemma object_refers_to_its_process_witness :
  refersToItsProcess
    (after [Run (SpawnReturns (Some 4242)); Stop; ProcessEmits 0 (Exit None (Some "SIGTERM"));
            Run (SpawnReturns None); InputData "again"]
       (world Sample.host0 Sample.command0)).
Proof.
  apply (object_refers_to_its_process "generated-id" (Some Sample.descriptor)
           (Some Sample.channels) Sample.host Sample.host0 Sample.command0
           [Run (SpawnReturns (Some 4242)); Stop; ProcessEmits 0 (Exit None (Some "SIGTERM"));
            Run (SpawnReturns None); InputData "again"]).
  reflexivity.
Defined.

End Identity.

(** ** More on the history *)

Section HistoryMore.

Lemma set_stdinWritten_same p : set_stdinWritten (stdinWritten p ++ []) p = p.
Proof. rewrite app_nil_r. destruct p; reflexivity. Qed.

(** [n] recorders on the input channel record a chunk [n] times and
    write it [n] times to the process the object refers to. *)
Lemma emit_input_recorders n chunk w :
  history (this (emit (repeat InputRecorder n) (EmitData chunk) w))
  = (history (this w)
     ++ repeat {| data := chunk; date := clock (runtime w); type := IN |} n)%list /\
  children (runtime (emit (repeat InputRecorder n) (EmitData chunk) w))
  = match childProcess (this w) with
    | Some i => alter (fun p => set_stdinWritten (stdinWritten p ++ repeat chunk n) p) i
                  (children (runtime w))
    | None => children (runtime w)
    end.
Proof.
  revert w. induction n as [|n IH]; intros w; simpl.
  - rewrite app_nil_r. split; [reflexivity|].
    destruct (childProcess (this w)); [|reflexivity].
    symmetry. apply list_alter_id. apply set_stdinWritten_same.
  - destruct (IH (onInputData chunk w)) as [-> ->].
    pose proof (onChild_runtime
                  (fun p => set_stdinWritten (stdinWritten p ++ [chunk]) p) w) as E.
    apply (f_equal clock) in E. simpl in E.
    unfold onInputData, push. simpl. rewrite E, onChild_this, onChild_children.
    split; [rewrite <- app_assoc; reflexivity|].
    destruct (childProcess (this w)) as [i|]; [|reflexivity].
    rewrite list_alter_alter_eq. apply list_alter_ext; [|reflexivity].
    intros p _. simpl. rewrite <- app_assoc. reflexivity.
Qed.

Lemma step_inputListeners a w :
  inputListeners (runtime (fst (step a w)))
  = (inputListeners (runtime w) ++ repeat InputRecorder (deliveries isSpawn [a]))%list.
Proof.
  destruct (isRun a) eqn:Ha.
  - destruct a as [|[err|pid']| | | | | | | | | |]; try discriminate.
    + simpl. rewrite app_nil_r. reflexivity.
    + change (step (Run (SpawnReturns pid')) w) with (run (SpawnReturns pid') w).
      destruct (run_children pid' w) as (p & _ & _ & _ & _ & -> & _). reflexivity.
  - destruct (step_recorders a w Ha) as (-> & _).
    replace (deliveries isSpawn [a]) with 0%nat; [rewrite app_nil_r; reflexivity|].
    destruct a; try reflexivity; discriminate.
Qed.

Lemma after_inputListeners script w :
  inputListeners (runtime (after script w))
  = (inputListeners (runtime w) ++ repeat InputRecorder (deliveries isSpawn script))%list.
Proof.
  revert w. induction script as [|a script IH]; intros w.
  - simpl. rewrite app_nil_r. reflexivity.
  - rewrite after_cons, IH, step_inputListeners, <- app_assoc. f_equal.
    unfold deliveries. simpl. destruct (isSpawn a); simpl; [|reflexivity].
    reflexivity.
Qed.

(** X18: every [run()] that spawns puts one more recorder on the input
    channel and none is ever taken off, so after [n] such calls on an
    object constructed in a pristine runtime a chunk arriving on the
    channel is entered [n] times in the history, tagged [IN] and dated
    with the time of its arrival, and written [n] times to the standard
    input of the process the object refers to. *)
Theorem input_recorded_once_per_spawn (idGenerator : string) (d : option Raw.Descriptor)
    (s : option Raw.Streams) (r r' : Runtime) (c : Command) (script : list Action)
    (chunk : string) :
  constructor idGenerator d s r = (r', inr c) ->
  pristine r ->
  let w := after script (world r' c) in
  let n := deliveries isSpawn script in
  inputListeners (runtime w) = repeat InputRecorder n /\
  history (this (deliverInput chunk w))
  = (history (this w)
     ++ repeat {| data := chunk; date := clock (runtime w); type := IN |} n)%list /\
  forall i p,
    childProcess (this w) = Some i -> children (runtime w) !! i = Some p ->
    children (runtime (deliverInput chunk w)) !! i
    = Some (set_stdinWritten (stdinWritten p ++ repeat chunk n) p).
Proof.
  intros Hc [_ Hin] w n.
  apply constructor_fresh in Hc. destruct Hc as (_ & _ & _ & _ & _ & _ & _ & Hin' & _).
  assert (Hl : inputListeners (runtime w) = repeat InputRecorder n).
  { unfold w, n. rewrite after_inputListeners. simpl. rewrite Hin', Hin. reflexivity. }
  split; [exact Hl|]. unfold deliverInput. rewrite Hl.
  destruct (emit_input_recorders n chunk w) as [-> ->].
  split; [reflexivity|].
  intros i p -> Hp. rewrite list_lookup_alter_eq, Hp. reflexivity.
Qed.

Lemma input_recorded_once_per_spawn_witness :
  let w := after [Run (SpawnReturns (Some 1)); Stop; Run (SpawnReturns (Some 2)); Tick 3]
             (world Sample.host0 Sample.command0) in
  let n := deliveries isSpawn
             [Run (SpawnReturns (Some 1)); Stop; Run (SpawnReturns (Some 2)); Tick 3] in
  inputListeners (runtime w) = repeat InputRecorder n /\
  history (this (deliverInput "y" w))
  = (history (this w)
     ++ repeat {| data := "y"; date := clock (runtime w); type := IN |} n)%list /\
  forall i p,
    childProcess (this w) = Some i -> children (runtime w) !! i = Some p ->
    children (runtime (deliverInput "y" w)) !! i
    = Some (set_stdinWritten (stdinWritten p ++ repeat "y" n) p).
Proof.
  apply (input_recorded_once_per_spawn "generated-id" (Some Sample.descriptor)
           (Some Sample.channels) Sample.host Sample.host0 Sample.command0
           [Run (SpawnReturns (Some 1)); Stop; Run (SpawnReturns (Some 2)); Tick 3] "y").
  - reflexivity.
  - split; reflexivity.
Defined.

Lemma call_appends_now l e w :
  exists more,
    history (this (call l e w)) = (history (this w) ++ more)%list /\
    Forall (fun x => date x = clock (runtime w)) more.
Proof.
  destruct l, e; try (exists []; rewrite app_nil_r; split; [reflexivity | constructor]).
  - eexists [_]. split; [reflexivity|]. repeat constructor.
  - eexists [_]. split; [reflexivity|]. repeat constructor.
  - eexists [_]. simpl. unfold onInputData, push. simpl. rewrite onChild_this.
    split; [reflexivity|]. constructor; [|constructor]. simpl.
    pose proof (onChild_runtime
                  (fun p => set_stdinWritten (stdinWritten p ++ [chunk]) p) w) as E.
    apply (f_equal clock) in E. exact E.
Qed.

Lemma emit_appends_now ls e w :
  exists more,
    history (this (emit ls e w)) = (history (this w) ++ more)%list /\
    Forall (fun x => date x = clock (runtime w)) more.
Proof.
  revert w. induction ls as [|l ls IH]; intros w; simpl.
  - exists []. rewrite app_nil_r. split; [reflexivity | constructor].
  - destruct (IH (call l e w)) as (more2 & -> & H2).
    destruct (call_appends_now l e w) as (more1 & -> & H1).
    destruct (call_runtime l e w) as [Hclock _]. rewrite Hclock in H2.
    exists (more1 ++ more2)%list. rewrite <- app_assoc. split; [reflexivity|].
    apply Forall_app. split; assumption.
Qed.

(** What one action adds to the history is dated with the time of the
    action, and the clock does not go back. *)
Lemma step_appends_now a w :
  exists more,
    history (this (fst (step a w))) = (history (this w) ++ more)%list /\
    Forall (fun x => date x = clock (runtime w)) more /\
    clock (runtime w) <= clock (runtime (fst (step a w))).
Proof.
  assert (Hsame : forall w', history (this w') = history (this w) ->
                             clock (runtime w') = clock (runtime w) ->
            exists more,
              history (this w') = (history (this w) ++ more)%list /\
              Forall (fun x => date x = clock (runtime w)) more /\
              clock (runtime w) <= clock (runtime w')).
  { intros w' Hh Hc. exists []. rewrite app_nil_r, Hc. split; [exact Hh|].
    split; [constructor | lia]. }
  assert (Hemit : forall ls e,
            exists more,
              history (this (emit ls e w)) = (history (this w) ++ more)%list /\
              Forall (fun x => date x = clock (runtime w)) more /\
              clock (runtime w) <= clock (runtime (emit ls e w))).
  { intros ls e. destruct (emit_appends_now ls e w) as (more & H1 & H2).
    destruct (emit_runtime ls e w) as [Hc _].
    exists more. split; [exact H1|]. split; [exact H2 | lia]. }
  assert (Hchild : forall f w0, history (this (onChild f w0)) = history (this w0) /\
                                clock (runtime (onChild f w0)) = clock (runtime w0)).
  { intros f w0. rewrite onChild_this. split; [reflexivity|].
    pose proof (onChild_runtime f w0) as E. apply (f_equal clock) in E. exact E. }
  destruct a as [ms|r| | |ps|event listener|event|child e|child chunk|child chunk|chunk|child stream err];
    simpl.
  - exists []. rewrite app_nil_r. split; [reflexivity|]. split; [constructor | lia].
  - destruct r as [err|pid']; simpl; [apply Hsame; reflexivity|].
    apply Hsame.
    + exact (f_equal history (run_this pid' w)).
    + destruct (run_children pid' w) as (p & _ & _ & _ & _ & _ & Hc). exact Hc.
  - unfold stop. destruct (Hchild (fun p => set_signals (signals p ++ ["SIGTERM"]) p)
                             (logger_debug ("Stopping command " +:+ nameAlias (this w)) w))
      as [Hh Hc].
    apply Hsame; [rewrite Hh | rewrite Hc]; reflexivity.
  - unfold kill. destruct (Hchild (fun p => set_signals (signals p ++ ["SIGKILL"]) p)
                             (logger_debug ("Killing command " +:+ nameAlias (this w)) w))
      as [Hh Hc].
    apply Hsame; [rewrite Hh | rewrite Hc]; reflexivity.
  - apply Hsame; reflexivity.
  - unfold onEvent. apply Hsame; apply Hchild.
  - apply Hsame; [rewrite removeAllEventListeners_this; reflexivity|].
    pose proof (removeAllEventListeners_runtime event w) as E.
    apply (f_equal clock) in E. exact E.
  - unfold deliver. destruct (children (runtime w) !! child) as [p|];
      [|apply Hsame; reflexivity].
    destruct e as [code signal|err]; simpl; [apply Hemit|].
    destruct (listenersOf "error" (listeners p)) as [|l ls];
      [apply Hsame; reflexivity | apply (Hemit (l :: ls))].
  - unfold deliverStdout. destruct (children (runtime w) !! child);
      [apply Hemit | apply Hsame; reflexivity].
  - unfold deliverStderr. destruct (children (runtime w) !! child);
      [apply Hemit | apply Hsame; reflexivity].
  - apply Hemit.
  - rewrite deliverStreamError_world. apply Hsame; reflexivity.
Qed.

Lemma chronological_later now now' h :
  now <= now' -> chronological now h -> chronological now' h.
Proof.
  intros Hle. induction h as [|e h IH]; simpl; [auto|].
  intros (H1 & H2 & H3). split; [lia|]. split; [exact H2 | apply IH; exact H3].
Qed.

Lemma chronological_app now h more :
  chronological now h -> Forall (fun x => date x = now) more ->
  chronological now (h ++ more)%list.
Proof.
  intros Hh Hm. induction h as [|e h IH]; simpl.
  - induction Hm as [|x more Hx Hm IHm]; simpl; [exact I|].
    split; [lia|]. split; [|exact IHm].
    eapply Forall_impl; [exact Hm|]. simpl. intros y Hy. lia.
  - destruct Hh as (H1 & H2 & H3). split; [exact H1|]. split; [|apply IH; exact H3].
    apply Forall_app. split; [exact H2|].
    eapply Forall_impl; [exact Hm|]. simpl. intros y Hy. lia.
Qed.

(** X19: the history of an object is always in the order of its
    dates, and no entry is dated later than the present time of the
    runtime: this holds at construction and is kept by every operation
    and every event, also across several calls of [run()]. *)
Theorem history_is_chronological (idGenerator : string) (d : option Raw.Descriptor)
    (s : option Raw.Streams) (r r' : Runtime) (c : Command) (script : list Action) :
  constructor idGenerator d s r = (r', inr c) ->
  chronological (clock (runtime (after script (world r' c))))
    (getHistoryDump (after script (world r' c))).
Proof.
  intros Hc. unfold getHistoryDump.
  assert (H0 : chronological (clock (runtime (world r' c))) (history (this (world r' c)))).
  { apply constructor_fresh in Hc. destruct Hc as (_ & _ & _ & _ & Hh & _).
    simpl. rewrite Hh. exact I. }
  revert H0. generalize (world r' c). clear.
  induction script as [|a script IH]; intros w Hw; [exact Hw|].
  rewrite after_cons. apply IH.
  destruct (step_appends_now a w) as (more & -> & Hmore & Hclock).
  eapply chronological_later; [exact Hclock|].
  apply chronological_app; assumption.
Qed.

Lemma history_is_chronological_witness :
  chronological
    (clock (runtime (after [Run (SpawnReturns (Some 1)); StdoutData 0 "a"; Tick 4;
                            Run (SpawnReturns (Some 2)); InputData "b"; Tick 1;
                            StderrData 1 "c"]
                       (world Sample.host0 Sample.command0))))
    (getHistoryDump (after [Run (SpawnReturns (Some 1)); StdoutData 0 "a"; Tick 4;
                            Run (SpawnReturns (Some 2)); InputData "b"; Tick 1;
                            StderrData 1 "c"]
                       (world Sample.host0 Sample.command0))).
Proof.
  apply (history_is_chronological "generated-id" (Some Sample.descriptor)
           (Some Sample.channels) Sample.host Sample.host0 Sample.command0
           [Run (SpawnReturns (Some 1)); StdoutData 0 "a"; Tick 4;
            Run (SpawnReturns (Some 2)); InputData "b"; Tick 1; StderrData 1 "c"]).
  reflexivity.
Defined.

End HistoryMore.

(** ** The stream bridge *)

Section Bridge.

Lemma chunksOf_app t h1 h2 : chunksOf t (h1 ++ h2)%list = (chunksOf t h1 ++ chunksOf t h2)%list.
Proof. unfold chunksOf. rewrite List.filter_app, map_app. reflexivity. Qed.

(** The observers of process events change nothing of the runtime but
    the log. *)
Lemma call_event_runtime l e w :
  match e with EmitData _ => False | _ => True end ->
  set_logs [] (runtime (call l e w)) = set_logs [] (runtime w).
Proof. destruct l, e; intros H; try destruct H; reflexivity. Qed.

Lemma emit_event_runtime ls e w :
  match e with EmitData _ => False | _ => True end ->
  set_logs [] (runtime (emit ls e w)) = set_logs [] (runtime w).
Proof.
  intros He. revert w. induction ls as [|l ls IH]; intros w; simpl; [reflexivity|].
  rewrite IH. apply call_event_runtime. exact He.
Qed.

Lemma only_process p l :
  Forall2 (fun p p' : ChildProcess => stdinWritten p' = stdinWritten p) [p] l ->
  exists p', l = [p'] /\ stdinWritten p' = (stdinWritten p ++ [])%list.
Proof.
  intros H. inversion H as [|? p' ? l' Hp Hnil]; subst. inversion Hnil; subst.
  exists p'. rewrite app_nil_r. auto.
Qed.

(** What one action writes to the three channels of a wired object, the
    buffers written being read by their text. *)
Lemma step_written a w p :
  isRun a = false -> wired w -> children (runtime w) = [p] ->
  map Buffer_toString (outputWritten (runtime (fst (step a w))))
  = (map Buffer_toString (outputWritten (runtime w))
     ++ chunksOf OUT (expectedHistory 0 (clock (runtime w)) [a]))%list /\
  map Buffer_toString (errorWritten (runtime (fst (step a w))))
  = (map Buffer_toString (errorWritten (runtime w))
     ++ chunksOf ERR (expectedHistory 0 (clock (runtime w)) [a]))%list /\
  exists p',
    children (runtime (fst (step a w))) = [p'] /\
    stdinWritten p'
    = (stdinWritten p ++ chunksOf IN (expectedHistory 0 (clock (runtime w)) [a]))%list.
Proof.
  intros Ha (Hcp & Hin & q & Hq & Hout & Herr) Hp.
  rewrite Hp in Hq. injection Hq as <-.
  set (R := fun p p' : ChildProcess => stdinWritten p' = stdinWritten p).
  assert (Rrefl : forall x, R x x) by reflexivity.
  assert (Rtrans : forall x y z, R x y -> R y z -> R x z)
    by (unfold R; intros; congruence).
  assert (Hquiet : forall w', set_children [] (set_logs [] (runtime w'))
                              = set_children [] (set_logs [] (runtime w)) ->
                              Forall2 R (children (runtime w)) (children (runtime w')) ->
            map Buffer_toString (outputWritten (runtime w'))
            = (map Buffer_toString (outputWritten (runtime w)) ++ [])%list /\
            map Buffer_toString (errorWritten (runtime w'))
            = (map Buffer_toString (errorWritten (runtime w)) ++ [])%list /\
            exists p', children (runtime w') = [p'] /\
                       stdinWritten p' = (stdinWritten p ++ [])%list).
  { intros w' E Hrel. rewrite !app_nil_r.
    split; [apply (f_equal outputWritten) in E; simpl in E; rewrite E; reflexivity|].
    split; [apply (f_equal errorWritten) in E; simpl in E; rewrite E; reflexivity|].
    rewrite Hp in Hrel. destruct (only_process _ _ Hrel) as (p' & -> & Hs).
    rewrite app_nil_r in Hs. exists p'. auto. }
  assert (Hchild : forall f w0,
            (forall x, R x (f x)) ->
            set_children [] (set_logs [] (runtime (onChild f w0)))
            = set_children [] (set_logs [] (runtime w0)) /\
            Forall2 R (children (runtime w0)) (children (runtime (onChild f w0)))).
  { intros f w0 Hf. split; [|apply onChild_related; assumption].
    pose proof (onChild_runtime f w0) as E.
    apply (f_equal (set_logs [])) in E. exact E. }
  assert (Hevent : forall ls e,
            match e with EmitData _ => False | _ => True end ->
            set_children [] (set_logs [] (runtime (emit ls e w)))
            = set_children [] (set_logs [] (runtime w)) /\
            Forall2 R (children (runtime w)) (children (runtime (emit ls e w)))).
  { intros ls e He. pose proof (emit_event_runtime ls e w He) as E.
    split; [apply (f_equal (set_children [])) in E; exact E|].
    apply (f_equal children) in E. simpl in E. rewrite E.
    apply related_refl. exact Rrefl. }
  assert (Hnone : set_children [] (set_logs [] (runtime w))
                  = set_children [] (set_logs [] (runtime w)) /\
                  Forall2 R (children (runtime w)) (children (runtime w)))
    by (split; [reflexivity | apply related_refl; exact Rrefl]).
  destruct a as [ms|r| | |ps|event listener|event|child e|child chunk|child chunk|chunk|child stream err];
    try discriminate; simpl.
  - apply Hquiet; apply Hnone.
  - unfold stop.
    destruct (Hchild (fun p => set_signals (signals p ++ ["SIGTERM"]) p)
                (logger_debug ("Stopping command " +:+ nameAlias (this w)) w)
                (fun x => eq_refl)) as [E Hrel].
    apply Hquiet; assumption.
  - unfold kill.
    destruct (Hchild (fun p => set_signals (signals p ++ ["SIGKILL"]) p)
                (logger_debug ("Killing command " +:+ nameAlias (this w)) w)
                (fun x => eq_refl)) as [E Hrel].
    apply Hquiet; assumption.
  - apply Hquiet; apply Hnone.
  - unfold onEvent. apply Hquiet; apply Hchild; reflexivity.
  - apply Hquiet.
    + pose proof (removeAllEventListeners_runtime event w) as E.
      apply (f_equal (set_logs [])) in E. exact E.
    + apply removeAllEventListeners_related; auto. reflexivity.
  - unfold deliver. rewrite Hp.
    destruct child as [|child]; simpl; [|apply Hquiet; apply Hnone].
    destruct e as [code signal|err]; simpl; [apply Hquiet; apply Hevent; exact I|].
    destruct (listenersOf "error" (listeners p)) as [|l ls];
      [apply Hquiet; apply Hnone | apply Hquiet; apply (Hevent (l :: ls)); exact I].
  - unfold deliverStdout. rewrite Hp.
    destruct child as [|child]; simpl; [|apply Hquiet; apply Hnone].
    rewrite Hout. simpl. rewrite Hp, map_app, !app_nil_r.
    split; [reflexivity|]. split; [reflexivity|]. exists p. auto.
  - unfold deliverStderr. rewrite Hp.
    destruct child as [|child]; simpl; [|apply Hquiet; apply Hnone].
    rewrite Herr. simpl. rewrite Hp, map_app, !app_nil_r.
    split; [reflexivity|]. split; [reflexivity|]. exists p. auto.
  - unfold deliverInput. rewrite Hin. simpl. unfold onInputData, push. simpl.
    pose proof (onChild_runtime
                  (fun p => set_stdinWritten (stdinWritten p ++ [chunk]) p) w) as E.
    rewrite !app_nil_r.
    split; [apply (f_equal outputWritten) in E; simpl in E; rewrite E; reflexivity|].
    split; [apply (f_equal errorWritten) in E; simpl in E; rewrite E; reflexivity|].
    rewrite onChild_children, Hcp, Hp. simpl. eexists. split; reflexivity.
  - rewrite deliverStreamError_world. apply Hquiet; apply Hnone.
Qed.

Lemma after_written script w p :
  noRun script = true -> wired w -> children (runtime w) = [p] ->
  map Buffer_toString (outputWritten (runtime (after script w)))
  = (map Buffer_toString (outputWritten (runtime w))
     ++ chunksOf OUT (expectedHistory 0 (clock (runtime w)) script))%list /\
  map Buffer_toString (errorWritten (runtime (after script w)))
  = (map Buffer_toString (errorWritten (runtime w))
     ++ chunksOf ERR (expectedHistory 0 (clock (runtime w)) script))%list /\
  exists p',
    children (runtime (after script w)) = [p'] /\
    stdinWritten p'
    = (stdinWritten p ++ chunksOf IN (expectedHistory 0 (clock (runtime w)) script))%list.
Proof.
  revert w p. induction script as [|a script IH]; intros w p Hs Hw Hp.
  - rewrite after_nil. simpl. unfold chunksOf. simpl. rewrite !app_nil_r.
    split; [reflexivity|]. split; [reflexivity|]. exists p. auto.
  - simpl in Hs. apply andb_prop in Hs as [Ha Hs]. apply negb_true_iff in Ha.
    rewrite after_cons, expectedHistory_cons, !chunksOf_app.
    destruct (step_written a w p Ha Hw Hp) as (Ho & He & p1 & Hp1 & Hi).
    destruct (IH (fst (step a w)) p1 Hs (step_wired a w Ha Hw) Hp1)
      as (Ho' & He' & p' & Hp' & Hi').
    destruct (step_recorders a w Ha) as (_ & Hclock & _).
    rewrite Hclock in Ho', He', Hi'.
    rewrite Ho', He', Ho, He, <- !app_assoc.
    split; [reflexivity|]. split; [reflexivity|].
    exists p'. split; [exact Hp'|]. rewrite Hi', Hi, <- app_assoc. reflexivity.
Qed.

Lemma chunksOf_length t h : length (chunksOf t h) = tagged t h.
Proof. unfold chunksOf, tagged. apply length_map. Qed.

(** X20: an object is constructed in a pristine runtime and [run()]
    spawns its process; any script follows that does not call [run()]
    again.  Then every entry of the history stands for one write, in the
    same order.  The output channel received, since the construction, one
    buffer per entry tagged [OUT], and the texts of these buffers (what
    [toString()] gives for them, the bytes written not being modelled) are
    the data of those entries; likewise the error channel for the entries
    tagged [ERR].  What was written to the standard input of the process
    is, value by value, the data of the entries tagged [IN]. *)
Theorem chunks_are_relayed (idGenerator : string) (d : option Raw.Descriptor)
    (s : option Raw.Streams) (r r' : Runtime) (c : Command) (pid' : option Z)
    (script : list Action) :
  constructor idGenerator d s r = (r', inr c) ->
  pristine r ->
  noRun script = true ->
  let w := after (Run (SpawnReturns pid') :: script) (world r' c) in
  map Buffer_toString (outputWritten (runtime w))
  = (map Buffer_toString (outputWritten r') ++ chunksOf OUT (getHistoryDump w))%list /\
  map Buffer_toString (errorWritten (runtime w))
  = (map Buffer_toString (errorWritten r') ++ chunksOf ERR (getHistoryDump w))%list /\
  length (outputWritten (runtime w))
  = (length (outputWritten r') + tagged OUT (getHistoryDump w))%nat /\
  length (errorWritten (runtime w))
  = (length (errorWritten r') + tagged ERR (getHistoryDump w))%nat /\
  exists p, children (runtime w) = [p] /\ stdinWritten p = chunksOf IN (getHistoryDump w).
Proof.
  intros Hc Hr Hs w. unfold getHistoryDump.
  destruct (run_wired _ _ _ _ _ _ pid' Hc Hr) as (Hw & _ & Hclock & Hh).
  pose proof (run_process pid' (world r' c)) as Hch.
  apply constructor_fresh in Hc. destruct Hc as (_ & _ & _ & _ & _ & _ & Hch' & _).
  destruct Hr as [Hr _].
  change (runtime (world r' c)) with r' in Hch. rewrite Hch', Hr in Hch.
  change ([] ++ ?l)%list with l in Hch.
  assert (H : map Buffer_toString (outputWritten (runtime w))
              = (map Buffer_toString (outputWritten r')
                 ++ chunksOf OUT (history (this w)))%list /\
              map Buffer_toString (errorWritten (runtime w))
              = (map Buffer_toString (errorWritten r')
                 ++ chunksOf ERR (history (this w)))%list /\
              exists p, children (runtime w) = [p] /\
                        stdinWritten p = chunksOf IN (history (this w))).
  { unfold w. rewrite after_cons.
    change (step (Run (SpawnReturns pid')) (world r' c))
      with (run (SpawnReturns pid') (world r' c)).
    destruct (after_history script _ Hs Hw) as [-> _].
    destruct (after_written script _ _ Hs Hw Hch) as (-> & -> & p' & Hp' & Hi).
    rewrite Hh, Hclock. simpl.
    split; [reflexivity|]. split; [reflexivity|]. exists p'. split; [exact Hp' | exact Hi]. }
  destruct H as (Ho & He & Hi).
  split; [exact Ho|]. split; [exact He|].
  split; [|split; [|exact Hi]].
  - apply (f_equal (@length string)) in Ho.
    rewrite length_app, !length_map, chunksOf_length in Ho. exact Ho.
  - apply (f_equal (@length string)) in He.
    rewrite length_app, !length_map, chunksOf_length in He. exact He.
Qed.

Lemma chunks_are_relayed_witness :
  let w := after (Run (SpawnReturns (Some 4242))
                  :: [StdoutData 0 "name? "; InputData "bob"; StderrData 0 "warn";
                      RemoveAllEventListeners None; StdoutData 0 "hello bob"])
             (world Sample.host0 Sample.command0) in
  map Buffer_toString (outputWritten (runtime w))
  = (map Buffer_toString (outputWritten Sample.host0)
     ++ chunksOf OUT (getHistoryDump w))%list /\
  map Buffer_toString (errorWritten (runtime w))
  = (map Buffer_toString (errorWritten Sample.host0)
     ++ chunksOf ERR (getHistoryDump w))%list /\
  length (outputWritten (runtime w))
  = (length (outputWritten Sample.host0) + tagged OUT (getHistoryDump w))%nat /\
  length (errorWritten (runtime w))
  = (length (errorWritten Sample.host0) + tagged ERR (getHistoryDump w))%nat /\
  exists p, children (runtime w) = [p] /\ stdinWritten p = chunksOf IN (getHistoryDump w).
Proof.
  apply (chunks_are_relayed "generated-id" (Some Sample.descriptor)
           (Some Sample.channels) Sample.host Sample.host0 Sample.command0 (Some 4242)
           [StdoutData 0 "name? "; InputData "bob"; StderrData 0 "warn";
            RemoveAllEventListeners None; StdoutData 0 "hello bob"]).
  - reflexivity.
  - split; reflexivity.
  - reflexivity.
Defined.

End Bridge.

(** ** The command string *)

Section CommandString.



Example sample_command_string :
  getCommandString Sample.created = "echo-n [object Object]".
Proof. reflexivity. Qed.

End CommandString.

(** ** The manifest picker *)

Section ManifestFacts.

Variable resolve : string -> string -> string.
Variable directoryLoader : string -> Manifest.DirError + list string.

(** When the promise of [listManifests] is fulfilled. *)
Lemma listManifests_fulfilled HOME paths :
  Manifest.listManifests resolve directoryLoader HOME = inr paths <->
  exists home content,
    HOME = Some home /\ home <> "" /\
    directoryLoader (resolve home ".tuizer") = inr content /\
    content <> [] /\
    paths = map (resolve (resolve home ".tuizer")) content.
Proof.
  unfold Manifest.listManifests. split.
  - intros H. destruct HOME as [home|]; [|discriminate].
    destruct (String.eqb_spec home ""); [discriminate|].
    destruct (directoryLoader (resolve home ".tuizer")) as [e|content] eqn:E.
    + destruct (Manifest.isENOENT e); discriminate.
    + destruct content as [|x content]; [discriminate|].
      injection H as <-. exists home, (x :: content).
      repeat split; try assumption; try reflexivity. discriminate.
  - intros (home & content & -> & Hne & E & Hc & ->).
    destruct (String.eqb_spec home ""); [congruence|]. rewrite E.
    destruct content; [congruence | reflexivity].
Qed.

End ManifestFacts.

Section ManifestTheorems.

(** X23: [listManifests] is fulfilled exactly when [HOME] is set and
    not empty, the directory [.tuizer] under it can be listed and the
    listing is not empty; its value then is the listing, entry by entry
    and in the same order, each entry resolved against that directory, so
    it is never empty. *)
Theorem listManifests_success (resolve : string -> string -> string)
    (directoryLoader : string -> Manifest.DirError + list string)
    (HOME : option string) (paths : list string) :
  (Manifest.listManifests resolve directoryLoader HOME = inr paths <->
   exists home content,
     HOME = Some home /\ home <> "" /\
     directoryLoader (resolve home ".tuizer") = inr content /\
     content <> [] /\
     paths = map (resolve (resolve home ".tuizer")) content) /\
  (Manifest.listManifests resolve directoryLoader HOME = inr paths -> paths <> []).
Proof.
  split; [apply listManifests_fulfilled|].
  intros H. apply listManifests_fulfilled in H.
  destruct H as (home & content & _ & _ & _ & Hc & ->).
  destruct content; [congruence | discriminate].
Qed.

(** X24: [listManifests] is rejected with an error of its own when
    [HOME] is missing or empty, before anything is read; when the
    directory does not exist (the loader fails with the code [ENOENT]);
    and when the directory is empty.  Any other failure of the loader is
    passed on as it is. *)
Theorem listManifests_failures (resolve : string -> string -> string)
    (directoryLoader : string -> Manifest.DirError + list string) (HOME : option string) :
  (HOME = None \/ HOME = Some "" ->
   Manifest.listManifests resolve directoryLoader HOME
   = inl (Manifest.PlainError "HOME env var is not set. Exiting")) /\
  (forall home dirErr,
     HOME = Some home -> home <> "" ->
     directoryLoader (resolve home ".tuizer") = inl dirErr ->
     Manifest.listManifests resolve directoryLoader HOME
     = inl (if Manifest.isENOENT dirErr
            then Manifest.PlainError "No $HOME/.tuizer directory found. Exiting"
            else Manifest.Rethrown dirErr)) /\
  (forall home,
     HOME = Some home -> home <> "" ->
     directoryLoader (resolve home ".tuizer") = inr [] ->
     Manifest.listManifests resolve directoryLoader HOME
     = inl (Manifest.PlainError "No files found at $HOME/.tuizer. Exiting ")).
Proof.
  unfold Manifest.listManifests. split; [|split].
  - intros [-> | ->]; reflexivity.
  - intros home dirErr -> Hne E.
    destruct (String.eqb_spec home ""); [congruence|]. rewrite E.
    destruct (Manifest.isENOENT dirErr); reflexivity.
  - intros home -> Hne E.
    destruct (String.eqb_spec home ""); [congruence|]. rewrite E. reflexivity.
Qed.

Lemma listManifests_failures_witness :
  Manifest.listManifests String.append
    (fun dir => inl {| Manifest.code := Some "EACCES"; Manifest.text := "permission denied" |})
    (Some "")
  = inl (Manifest.PlainError "HOME env var is not set. Exiting") /\
  Manifest.listManifests String.append
    (fun dir => inl {| Manifest.code := Some "EACCES"; Manifest.text := "permission denied" |})
    (Some "/home/user/")
  = inl (Manifest.Rethrown
           {| Manifest.code := Some "EACCES"; Manifest.text := "permission denied" |}) /\
  Manifest.listManifests String.append (fun dir => inr []) (Some "/home/user/")
  = inl (Manifest.PlainError "No files found at $HOME/.tuizer. Exiting ").
Proof.
  split; [|split].
  - destruct (listManifests_failures String.append
                (fun dir => inl {| Manifest.code := Some "EACCES";
                                   Manifest.text := "permission denied" |})
                (Some "")) as (H & _).
    apply H. right. reflexivity.
  - destruct (listManifests_failures String.append
                (fun dir => inl {| Manifest.code := Some "EACCES";
                                   Manifest.text := "permission denied" |})
                (Some "/home/user/")) as (_ & H & _).
    apply (H "/home/user/"
             {| Manifest.code := Some "EACCES"; Manifest.text := "permission denied" |});
      [reflexivity | discriminate | reflexivity].
  - destruct (listManifests_failures String.append (fun dir => inr [])
                (Some "/home/user/")) as (_ & _ & H).
    apply (H "/home/user/"); [reflexivity | discriminate | reflexivity].
Defined.

Lemma listManifests_success_witness :
  Manifest.listManifests String.append (fun dir => inr ["a.json"; "b.json"])
    (Some "/home/user/")
  = inr ["/home/user/.tuizera.json"; "/home/user/.tuizerb.json"] /\
  ["/home/user/.tuizera.json"; "/home/user/.tuizerb.json"] <> [].
Proof.
  destruct (listManifests_success String.append (fun dir => inr ["a.json"; "b.json"])
              (Some "/home/user/")
              ["/home/user/.tuizera.json"; "/home/user/.tuizerb.json"]) as [Hiff Hne].
  assert (H : Manifest.listManifests String.append (fun dir => inr ["a.json"; "b.json"])
                (Some "/home/user/")
              = inr ["/home/user/.tuizera.json"; "/home/user/.tuizerb.json"]).
  { apply Hiff. exists "/home/user/", ["a.json"; "b.json"].
    repeat split; try reflexivity; discriminate. }
  split; [exact H | exact (Hne H)].
Defined.

End ManifestTheorems.

(** ** Events of the process, observed and not *)

Section Attached.

Variable name : string.
Variable observer : Listener.
Hypothesis registered :
  In observer (listenersOf name [("exit", ExitObserver); ("error", ErrorObserver)]).




End Attached.

Section ObservedEvents.







End ObservedEvents.
